(** * bignum: fixed-point decimal numbers over math/big

  A shallow embedding of the Go package [bignum] (the draft with the
  [value] field and the [applyRounding(value *big.Int)] helper, which is
  the one the package's test file exercises) together with the
  [applyRounding(precision uint)] helper of the earlier draft.

  Go pointers to [big.Int] are [option Z] ([None] is the nil pointer),
  machine integers are [Z]/[N] with their wrap-around written out, and a
  Go call that may return an error or panic yields an [outcome]. *)

From Stdlib Require Import ZArith Lia List Bool Ascii String.
From Stdlib Require Import Numbers.DecimalString Numbers.DecimalPos.
Import ListNotations.

Local Open Scope string_scope.
Local Open Scope Z_scope.

(** ** Results of Go calls *)

(** The run-time panics the package can raise. *)
Inductive panic : Type :=
| NilDereference      (* field access or method call through a nil pointer *)
| DivideByZero        (* big.Int.Div / big.Int.Mod with a zero divisor *)
| IndexOutOfRange     (* s[i] with i >= len(s) *)
| SliceOutOfRange     (* s[:i] with i > len(s) *)
| NegativeRepeatCount. (* strings.Repeat with a negative count *)

(** ErrorType of the package, in the order of its [iota] block. *)
Inductive ErrorType : Type :=
| OverflowError
| PrecisionError
| DivisionByZeroError
| InvalidInputError
| UndefinedOperationError.

(** A call returns its value, returns a [BigNumberError], or panics. *)
Inductive outcome (A : Type) : Type :=
| Ok (a : A)
| Err (e : ErrorType)
| Panic (p : panic).

Arguments Ok {A} a.
Arguments Err {A} e.
Arguments Panic {A} p.

Definition bind {A B : Type} (m : outcome A) (k : A -> outcome B) : outcome B :=
match m with
| Ok a => k a
| Err e => Err e
| Panic p => Panic p
end.

Notation "x <- m ;; k" := (bind m (fun x => k))
(at level 61, m at next level, right associativity).

(** ** The parts of Go's runtime and of math/big and strings that the
  package calls *)

Module Go.

(** Conversion to [int64], and to [int] on a 64-bit platform: the low 64
    bits, read as a two's complement number. *)
Definition int64 (n : Z) : Z :=
  let m := n mod 2 ^ 64 in
  if m <? 2 ^ 63 then m else m - 2 ^ 64.

(** Addition on [uint]. *)
Definition uint_add (a b : N) : N := ((a + b) mod 2 ^ 64)%N.

(** [len(s)] *)
Definition len (s : string) : Z := Z.of_nat (String.length s).

(** [big.Int.Exp(10, e, nil)]: the result is 1 when [e <= 0]. *)
Definition Exp10 (e : Z) : Z := if e <=? 0 then 1 else 10 ^ e.

(** Euclidean quotient and remainder, as [big.Int.Div] and
    [big.Int.Mod] compute them for a non-zero divisor:
    [x = q * y + r] with [0 <= r < |y|]. *)
Definition ediv (x y : Z) : Z := if 0 <? y then x / y else - (x / (- y)).
Definition emod (x y : Z) : Z := x mod (Z.abs y).

(** [z.Div(x, y)] and [z.Mod(x, y)] on pointers: nil operands and a zero
    divisor panic. *)
Definition Div (x y : option Z) : outcome Z :=
  match x, y with
  | Some a, Some b => if b =? 0 then Panic DivideByZero else Ok (ediv a b)
  | _, _ => Panic NilDereference
  end.

Definition Mod (x y : option Z) : outcome Z :=
  match x, y with
  | Some a, Some b => if b =? 0 then Panic DivideByZero else Ok (emod a b)
  | _, _ => Panic NilDereference
  end.

(** Binary operations that only read their operands. *)
Definition lift2 (f : Z -> Z -> Z) (x y : option Z) : outcome Z :=
  match x, y with
  | Some a, Some b => Ok (f a b)
  | _, _ => Panic NilDereference
  end.

Definition Add := lift2 Z.add.
Definition Sub := lift2 Z.sub.
Definition Mul := lift2 Z.mul.

(** [new(big.Int).Set(x)] *)
Definition Set_ (x : option Z) : outcome Z :=
  match x with
  | Some a => Ok a
  | None => Panic NilDereference
  end.

(** [x.Sign()] *)
Definition Sign (x : option Z) : outcome Z :=
  match x with
  | Some a => Ok (Z.sgn a)
  | None => Panic NilDereference
  end.

(** [x.Cmp(y)]: the method first tests [x == y] on the pointers, so two
    nil pointers compare equal; otherwise it reads both operands. Two
    non-nil pointers are compared by value (equal pointers hold equal
    values). *)
Definition Cmp (x y : option Z) : outcome Z :=
  match x, y with
  | None, None => Ok 0
  | Some a, Some b =>
      Ok (match a ?= b with Lt => -1 | Eq => 0 | Gt => 1 end)
  | _, _ => Panic NilDereference
  end.

(** [x.String()] for a non-nil [x]: decimal digits, with a leading
    minus sign for negative values. *)
Definition Int_String (z : Z) : string :=
  NilZero.string_of_int (Z.to_int z).

(** Value of a decimal digit. *)
Definition digit (c : ascii) : option Z :=
  let n := Z.of_N (N_of_ascii c) in
  if (48 <=? n) && (n <=? 57) then Some (n - 48) else None.

(** Reads decimal digits from the front of [s] into the accumulator;
    returns the number read, how many digits were read and the rest. *)
Fixpoint scan (acc : Z) (count : nat) (s : string) : Z * nat * string :=
  match s with
  | EmptyString => (acc, count, s)
  | String c rest =>
      match digit c with
      | Some d => scan (10 * acc + d) (S count) rest
      | None => (acc, count, s)
      end
  end.

(** Strips one leading sign. *)
Definition scanSign (s : string) : bool * string :=
  match s with
  | String "-" rest => (true, rest)
  | String "+" rest => (false, rest)
  | _ => (false, s)
  end.

(** [z.SetString(s, 10)] on a fresh [z]: the value left in [z] and the
    success flag. It succeeds when [s] is an optional sign followed by
    one or more digits and nothing else. On failure the library leaves
    [z] unspecified; its scanner stores the digits it read before the
    offending byte, which is what this definition returns. *)
Definition SetString (s : string) : Z * bool :=
  let '(neg, body) := scanSign s in
  let '(n, count, rest) := scan 0 0 body in
  let v := if neg then - n else n in
  match count, rest with
  | O, _ => (0, false)
  | S _, EmptyString => (v, true)
  | S _, String _ _ => (v, false)
  end.

(** [strings.ToLower], as far as the package depends on it: the result
    is only compared with "inf" and "nan". The letters A-Z are mapped to
    a-z, and so is the one rune outside ASCII whose lower case is a
    letter of those two words, U+0130 (bytes 0xC4 0xB0, always decoded
    as that rune since 0xC4 is never a continuation byte), which the
    library maps to 'i'. Every other byte is kept: what the library
    does to it (another letter outside ASCII, the Kelvin sign, a byte
    that is not UTF-8) never yields a letter of "inf" or "nan". *)
Definition lower (c : ascii) : ascii :=
  let n := N_of_ascii c in
  if ((65 <=? n) && (n <=? 90))%N then ascii_of_N (n + 32) else c.

Fixpoint ToLower (s : string) : string :=
  match s with
  | EmptyString => EmptyString
  | String c rest =>
      match rest with
      | String c' rest' =>
          if ((N_of_ascii c =? 196) && (N_of_ascii c' =? 176))%N
          then String "i" (ToLower rest')
          else String (lower c) (ToLower rest)
      | EmptyString => String (lower c) EmptyString
      end
  end.

(** [strings.Split(s, ".")]: always at least one part. *)
Fixpoint Split (s : string) : string * list string :=
  match s with
  | EmptyString => (EmptyString, [])
  | String c rest =>
      let '(p, ps) := Split rest in
      if Ascii.eqb c "." then (EmptyString, p :: ps)
      else (String c p, ps)
  end.

(** [strings.Repeat("0", n)] *)
Fixpoint Repeat0 (n : nat) : string :=
  match n with
  | O => EmptyString
  | S k => String "0" (Repeat0 k)
  end.

(** [new(big.Int).Exp(x, big.NewInt(e), nil)]: [x**e], and 1 when
    [e <= 0]; the method reads [x] first, so a nil [x] panics. *)
Definition Exp (x : option Z) (e : Z) : outcome Z :=
  match x with
  | Some a => Ok (if e <=? 0 then 1 else a ^ e)
  | None => Panic NilDereference
  end.

End Go.

(** ** The package *)

Module Bignum.

Inductive RoundingMode : Type :=
| RoundUp
| RoundDown
| RoundToNearest
| RoundToEven.

(** The struct [BigNumber]. The three [*big.Int] fields are nil in a
    value built by a bare struct literal. *)
Record BigNumber : Type := mkBigNumber {
  positive : option Z;
  negative : option Z;
  precision : N;
  rounding : RoundingMode;
  isInf : bool;
  isNan : bool;
  value : option Z
}.

(** [&BigNumber{precision: p, rounding: r}] *)
Definition literal (p : N) (r : RoundingMode) : BigNumber :=
  mkBigNumber None None p r false false None.

(** NewBigNumber creates a new BigNumber from a string representation. *)
Definition NewBigNumber (str : string) (precision : N)
           (rounding : RoundingMode) : outcome BigNumber :=
  if String.eqb (Go.ToLower str) "inf" then
    Ok (mkBigNumber None None precision rounding true false None)
  else if String.eqb (Go.ToLower str) "nan" then
    Ok (mkBigNumber None None precision rounding false true None)
  else if String.eqb str "" then Err InvalidInputError
  else
    let '(integerPart, more) := Go.Split str in
    let decimalPart := match more with d :: _ => d | [] => "" end in
    match integerPart with
    | EmptyString => Panic IndexOutOfRange
    | String c rest =>
        let '(sign, integerPart) :=
          if Ascii.eqb c "-" then (-1, rest) else (1, integerPart) in
        let '(integerBigInt, ok) := Go.SetString integerPart in
        if negb ok then Err InvalidInputError
        else
          let decimalBigInt :=
            if 0 <? Go.len decimalPart then
              let '(d, _) := Go.SetString decimalPart in
              let decimalPart :=
                if Z.of_N precision <? Go.len decimalPart
                then substring 0 (N.to_nat precision) decimalPart
                else decimalPart in
              let scaleFactor :=
                Go.Exp10 (Go.int64 (Z.of_N precision - Go.len decimalPart)) in
              d * scaleFactor
            else 0 in
          let '(pos, neg) :=
            if sign =? 1 then (integerBigInt, decimalBigInt)
            else (decimalBigInt, integerBigInt) in
          Ok (mkBigNumber (Some pos) (Some neg) precision rounding
                          false false (Some (pos - neg)))
    end.


(** checkPrecision ensures that both BigNumbers have the same precision. *)
Definition checkPrecision (bn other : BigNumber) : outcome unit :=
  if negb (N.eqb (precision bn) (precision other)) then Err PrecisionError
  else Ok tt.

(** IsZero returns true if the BigNumber is zero. *)
Definition IsZero (bn : BigNumber) : outcome bool :=
  s <- Go.Sign (value bn) ;; Ok (s =? 0).

(** checkSpecialCases checks for infinity and NaN in both BigNumbers and
    returns an error if found; it also rejects two zero operands. *)
Definition checkSpecialCases (bn other : BigNumber) : outcome unit :=
  if isInf bn || isInf other then Err UndefinedOperationError
  else if isNan bn || isNan other then Err UndefinedOperationError
  else
    z1 <- IsZero bn ;;
    z2 <- (if z1 then IsZero other else Ok false) ;;
    if z1 && z2 then Err UndefinedOperationError else Ok tt.

Definition checkOperands (bn other : BigNumber) : outcome unit :=
  _ <- checkPrecision bn other ;;
  checkSpecialCases bn other.

(** scaleForPrecision returns the scale factor for the precision. *)
Definition scaleForPrecision (bn : BigNumber) : Z :=
  Go.Exp10 (Go.int64 (Z.of_N (precision bn))).

(** applyRounding(value *big.Int) *big.Int. The method works in place on
    [value]: every [value.Op(value, ...)] overwrites it, which the chain of
    bindings below follows step by step. RoundUp and RoundDown fall
    through the switch and hand the pointer back untouched. *)
Definition applyRounding (bn : BigNumber) (value : option Z)
  : outcome (option Z) :=
  match rounding bn with
  | RoundToNearest =>
      let halfScaleFactor := Go.ediv (scaleForPrecision bn) 2 in
      value <- Go.Add value (Some halfScaleFactor) ;;
      value <- Go.Div (Some value) (Some (scaleForPrecision bn)) ;;
      Ok (Some value)
  | RoundToEven =>
      let halfScaleFactor := Go.ediv (scaleForPrecision bn) 2 in
      value <- Go.Add value (Some halfScaleFactor) ;;
      value <- Go.Div (Some value) (Some (scaleForPrecision bn)) ;;
      (* value.Mod(value, 10).Cmp(5) == 0 *)
      value <- Go.Mod (Some value) (Some 10) ;;
      if value =? 5 then
        (* value.Div(value, 10).Mod(value, 2).Cmp(1) == 0 *)
        value <- Go.Div (Some value) (Some 10) ;;
        value <- Go.Mod (Some value) (Some 2) ;;
        if value =? 1 then Ok (Some (value + 1)) else Ok (Some value)
      else Ok (Some value)
  | RoundUp | RoundDown => Ok value
  end.

(** Add adds two BigNumbers and returns a new BigNumber. *)
Definition Add (bn other : BigNumber) : outcome BigNumber :=
  _ <- checkOperands bn other ;;
  p <- Go.Set_ (positive bn) ;;
  n <- Go.Set_ (negative bn) ;;
  p <- Go.Add (Some p) (positive other) ;;
  n <- Go.Add (Some n) (negative other) ;;
  v <- applyRounding bn (Some (p - n)) ;;
  Ok (mkBigNumber (Some p) (Some n) (precision bn) (rounding bn)
                  false false v).

(** Subtract subtracts two BigNumbers and returns a new BigNumber. *)
Definition Subtract (bn other : BigNumber) : outcome BigNumber :=
  _ <- checkOperands bn other ;;
  p <- Go.Set_ (positive bn) ;;
  n <- Go.Set_ (negative bn) ;;
  p <- Go.Sub (Some p) (positive other) ;;
  n <- Go.Sub (Some n) (negative other) ;;
  v <- applyRounding bn (Some (p - n)) ;;
  Ok (mkBigNumber (Some p) (Some n) (precision bn) (rounding bn)
                  false false v).

(** Multiply multiplies two BigNumbers and returns a new BigNumber. *)
Definition Multiply (bn other : BigNumber) : outcome BigNumber :=
  _ <- checkOperands bn other ;;
  p <- Go.Set_ (positive bn) ;;
  n <- Go.Set_ (negative bn) ;;
  p <- Go.Mul (Some p) (positive other) ;;
  n <- Go.Mul (Some n) (negative other) ;;
  v <- applyRounding bn (Some (p - n)) ;;
  Ok (mkBigNumber (Some p) (Some n)
                  (Go.uint_add (precision bn) (precision other))
                  (rounding bn) false false v).

(** What a Go caller holds after [q, _ := NewBigNumber(...)]: the pointer,
    nil when the constructor returned an error. *)
Definition pointer_of (r : outcome BigNumber) : outcome (option BigNumber) :=
  match r with
  | Ok bn => Ok (Some bn)
  | Err _ => Ok None
  | Panic p => Panic p
  end.

(** [q.field = ...] through a pointer that may be nil. *)
Definition deref (q : option BigNumber) : outcome BigNumber :=
  match q with
  | Some bn => Ok bn
  | None => Panic NilDereference
  end.

(** Divide divides two BigNumbers and returns a new BigNumber. *)
Definition Divide (bn other : BigNumber) : outcome BigNumber :=
  _ <- checkPrecision bn other ;;
  _ <- checkSpecialCases bn other ;;
  z <- IsZero other ;;
  if z then Err DivisionByZeroError
  else
    let scaleFactor := Some (scaleForPrecision bn) in
    scaledDividendPositive <- Go.Mul (positive bn) scaleFactor ;;
    scaledDividendNegative <- Go.Mul (negative bn) scaleFactor ;;
    scaledDivisorPositive <- Go.Mul (positive other) scaleFactor ;;
    scaledDivisorNegative <- Go.Mul (negative other) scaleFactor ;;
    quotientPositive <-
      Go.Div (Some scaledDividendPositive) (Some scaledDivisorPositive) ;;
    quotientNegative <-
      Go.Div (Some scaledDividendNegative) (Some scaledDivisorNegative) ;;
    quotient <- pointer_of (NewBigNumber "" (precision bn) (rounding bn)) ;;
    (* quotient.positive = quotientPositive; quotient.negative = ... *)
    q <- deref quotient ;;
    v <- applyRounding bn (Some (quotientPositive - quotientNegative)) ;;
    let '(p, n) :=
      if quotientPositive <? quotientNegative
      then (quotientNegative, quotientPositive)
      else (quotientPositive, quotientNegative) in
    Ok (mkBigNumber (Some p) (Some n) (precision q) (rounding q)
                    (isInf q) (isNan q) (Some (p - n))).

(** Modulo performs the modulo operation on two BigNumbers. *)
Definition Modulo (bn other : BigNumber) : outcome BigNumber :=
  _ <- checkPrecision bn other ;;
  _ <- checkSpecialCases bn other ;;
  z <- IsZero other ;;
  if z then Err DivisionByZeroError
  else
    let scaleFactor := Some (scaleForPrecision bn) in
    scaledDividendPositive <- Go.Mul (positive bn) scaleFactor ;;
    scaledDividendNegative <- Go.Mul (negative bn) scaleFactor ;;
    scaledDivisorPositive <- Go.Mul (positive other) scaleFactor ;;
    scaledDivisorNegative <- Go.Mul (negative other) scaleFactor ;;
    remainderPositive <-
      Go.Mod (Some scaledDividendPositive) (Some scaledDivisorPositive) ;;
    remainderNegative <-
      Go.Mod (Some scaledDividendNegative) (Some scaledDivisorNegative) ;;
    remainder <- pointer_of (NewBigNumber "" (precision bn) (rounding bn)) ;;
    r <- deref remainder ;;
    Ok (mkBigNumber (Some remainderPositive) (Some remainderNegative)
                    (precision r) (rounding r) (isInf r) (isNan r)
                    (Some (remainderPositive - remainderNegative))).

(** Round rounds the BigNumber to the specified precision. *)
Definition Round (bn : BigNumber) (precision' : N) : outcome BigNumber :=
  if N.eqb precision' (precision bn) then Ok bn
  else
    v <- Go.Set_ (value bn) ;;
    v <- applyRounding bn (Some v) ;;
    Ok (mkBigNumber None None precision' (rounding bn) false false v).

(** String returns a string representation of the BigNumber. *)
Definition BigNumber_String (bn : BigNumber) : outcome string :=
  if isInf bn then Ok "Infinity"
  else if isNan bn then Ok "NaN"
  else
    valueCopy <- Go.Set_ (value bn) ;;
    let sign := if Z.sgn valueCopy <? 0 then "-" else "" in
    let valueCopy := Z.abs valueCopy in
    let str := Go.Int_String valueCopy in
    str <-
      (if (0 <? precision bn)%N then
         let decimalIndex :=
           Go.int64 (Go.len str - Go.int64 (Z.of_N (precision bn))) in
         if decimalIndex <? 0 then
           (* strings.Repeat("0", -decimalIndex): the negation wraps *)
           let count := Go.int64 (- decimalIndex) in
           if count <? 0 then Panic NegativeRepeatCount
           else Ok (Go.Repeat0 (Z.to_nat count) ++ "." ++ str)%string
         else if decimalIndex =? 0 then Ok ("0." ++ str)%string
         else if Go.len str <? decimalIndex then Panic SliceOutOfRange
         else
           let k := Z.to_nat decimalIndex in
           Ok (substring 0 k str ++ "." ++
               substring k (String.length str - k) str)%string
       else Ok "0") ;;
    Ok (sign ++ str)%string.

(** The five comparisons share one shape: a fixed answer when both
    operands are infinite or both are NaN, and otherwise a test on
    [bn.value.Cmp(other.value)]. *)
Definition compare_with (same : bool) (test : Z -> bool)
           (bn other : BigNumber) : outcome bool :=
  if (isInf bn && isInf other) || (isNan bn && isNan other) then Ok same
  else c <- Go.Cmp (value bn) (value other) ;; Ok (test c).

Definition Equal := compare_with true (fun c => c =? 0).
Definition LessThan := compare_with false (fun c => c <? 0).
Definition GreaterThan := compare_with false (fun c => c >? 0).
Definition LessOrEqual := compare_with true (fun c => c <=? 0).
Definition GreaterOrEqual := compare_with true (fun c => c >=? 0).

(** The body of the [for] loop of Exp, with the state it carries: the
    operand [xInt], the current term, the running sum and the counter [i]
    (a Go [int], so [i++] wraps). [factorialInt] is updated by the source
    but never read, and is left out. The loop has no other exit than the
    test on the term; [fuel] bounds the passes of the model only, and
    [None] means the fuel ran out. *)
Fixpoint Exp_loop (fuel : nat) (xInt termInt resultInt i : Z)
  : option (outcome Z) :=
  match fuel with
  | O => None
  | S fuel' =>
      let termInt := termInt * xInt in
      match Go.Div (Some termInt) (Some i) with
      | Ok termInt =>
          let resultInt := resultInt + termInt in
          if termInt <? 1 then Some (Ok resultInt)
          else Exp_loop fuel' xInt termInt resultInt (Go.int64 (i + 1))
      | Err e => Some (Err e)
      | Panic p => Some (Panic p)
      end
  end.

(** The last two statements of Exp and of Log: build the result from the
    decimal text of an integer and round its value. *)
Definition reparse (bn : BigNumber) (n : Z) : outcome BigNumber :=
  result <- pointer_of (NewBigNumber (Go.Int_String n) (precision bn)
                                     (rounding bn)) ;;
  r <- deref result ;;
  v <- applyRounding bn (value r) ;;
  Ok (mkBigNumber (positive r) (negative r) (precision r) (rounding r)
                  (isInf r) (isNan r) v).

(** Exp approximates the exponential function using Taylor series. *)
Definition Exp (fuel : nat) (bn : BigNumber) : option (outcome BigNumber) :=
  if isInf bn || isNan bn then
    Some (Ok (mkBigNumber None None (precision bn) (rounding bn)
                          false true None))
  else
    match Go.Set_ (value bn) with
    | Ok xInt =>
        match Exp_loop fuel xInt 1 1 1 with
        | None => None
        | Some r => Some (resultInt <- r ;; reparse bn resultInt)
        end
    | Err e => Some (Err e)
    | Panic p => Some (Panic p)
    end.

(** [expYInt, _ := bn.Exp(); expYInt.value = bn.applyRounding(expYInt.value)] *)
Definition Log_exp (fuel : nat) (bn : BigNumber) : option (outcome (option Z)) :=
  match Exp fuel bn with
  | None => None
  | Some r =>
      Some (expYInt <- pointer_of r ;;
            e <- deref expYInt ;;
            applyRounding bn (value e))
  end.

(** The [for] loop of Log. Each pass starts from the value [expY] computed
    by the previous call of Exp on the receiver. *)
Fixpoint Log_loop (fuel passes : nat) (bn : BigNumber) (xInt yInt : Z)
         (expY : option Z) : option (outcome Z) :=
  match passes with
  | O => None
  | S passes' =>
      match (d <- Go.Sub expY (Some xInt) ;; Go.Div (Some d) expY) with
      | Ok deltaInt =>
          let yInt := yInt - deltaInt in
          if deltaInt <? 1 then Some (Ok yInt)
          else
            match Log_exp fuel bn with
            | None => None
            | Some (Ok expY') => Log_loop fuel passes' bn xInt yInt expY'
            | Some (Err e) => Some (Err e)
            | Some (Panic p) => Some (Panic p)
            end
      | Err e => Some (Err e)
      | Panic p => Some (Panic p)
      end
  end.

(** Log approximates the natural logarithm using Newton's method. *)
Definition Log (fuel : nat) (bn : BigNumber) : option (outcome BigNumber) :=
  if isInf bn || isNan bn then
    Some (Ok (mkBigNumber None None (precision bn) (rounding bn)
                          false true None))
  else
    match IsZero bn with
    | Ok true => Some (Err UndefinedOperationError)
    | Ok false =>
        match value bn with
        | None => Some (Panic NilDereference)
        | Some xInt =>
            if Z.sgn xInt <? 0 then Some (Err UndefinedOperationError)
            else
              match Log_exp fuel bn with
              | None => None
              | Some (Ok expY) =>
                  match Log_loop fuel fuel bn xInt 1 expY with
                  | None => None
                  | Some r => Some (yInt <- r ;; reparse bn yInt)
                  end
              | Some (Err e) => Some (Err e)
              | Some (Panic p) => Some (Panic p)
              end
        end
    | Err e => Some (Err e)
    | Panic p => Some (Panic p)
    end.

(** The end of Exponentiate and of the earlier draft's Add, Subtract and
    Multiply: the overflow test against the receiver's halves, the swap
    that keeps the larger half in [positive], and the value. *)
Definition settle (bn : BigNumber) (p n : Z) (precision' : N)
  : outcome BigNumber :=
  c1 <- Go.Cmp (Some p) (positive bn) ;;
  c2 <- (if c1 <? 0 then Ok c1 else Go.Cmp (Some n) (negative bn)) ;;
  if (c1 <? 0) || (c2 <? 0) then Err OverflowError
  else
    let '(p, n) := if p <? n then (n, p) else (p, n) in
    Ok (mkBigNumber (Some p) (Some n) precision' (rounding bn)
                    false false (Some (p - n))).

(** Exponentiate raises a BigNumber to the power of an integer. *)
Definition Exponentiate (bn : BigNumber) (exponent : Z)
  : outcome BigNumber :=
  p <- Go.Exp (positive bn) exponent ;;
  n <- Go.Exp (negative bn) exponent ;;
  settle bn p n (precision bn).

(** AbsoluteValue returns the absolute value of a BigNumber. *)
Definition AbsoluteValue (bn : BigNumber) : outcome BigNumber :=
  s <- Go.Sign (value bn) ;;
  v <- Go.Set_ (value bn) ;;
  Ok (mkBigNumber None None (precision bn) (rounding bn) false false
                  (Some (if s <? 0 then - v else v))).

End Bignum.

(** ** The earlier draft's rounding: [applyRounding(precision uint)] *)

Module Draft.

Import Bignum.

(** applyRounding applies rounding to a BigNumber based on the specified
    rounding mode and precision. [scaledValue] is updated in place by the
    RoundToEven test; [result.value] is a separate integer. *)
Definition applyRounding (bn : BigNumber) (precision' : N)
  : outcome BigNumber :=
  if N.eqb precision' (precision bn) then Ok bn
  else
    let scaleFactor := Go.Exp10 (Go.int64 (Z.of_N precision')) in
    scaledValue <- Go.Mul (value bn) (Some scaleFactor) ;;
    v <-
      match rounding bn with
      | RoundUp =>
          let scaledValue := scaledValue + 1 in
          Go.Div (Some scaledValue) (Some scaleFactor)
      | RoundDown => Go.Div (Some scaledValue) (Some scaleFactor)
      | RoundToNearest =>
          let halfScaleFactor := Go.ediv scaleFactor 2 in
          let scaledValue := scaledValue + halfScaleFactor in
          Go.Div (Some scaledValue) (Some scaleFactor)
      | RoundToEven =>
          let halfScaleFactor := Go.ediv scaleFactor 2 in
          let scaledValue := scaledValue + halfScaleFactor in
          v <- Go.Div (Some scaledValue) (Some scaleFactor) ;;
          scaledValue <- Go.Mod (Some scaledValue) (Some 10) ;;
          if scaledValue =? 5 then
            scaledValue <- Go.Div (Some scaledValue) (Some 10) ;;
            scaledValue <- Go.Mod (Some scaledValue) (Some 2) ;;
            if scaledValue =? 1 then Ok (v + 1) else Ok v
          else Ok v
      end ;;
    Ok (mkBigNumber None None precision' (rounding bn) false false (Some v)).

(** Round rounds the BigNumber to the specified precision. The helper
    never returns an error, so the [nil] branch of the source is dead. *)
Definition Round (bn : BigNumber) (precision' : N) : outcome BigNumber :=
  if N.eqb precision' (precision bn) then Ok bn
  else applyRounding bn precision'.

(** checkSpecialCases of the earlier draft: infinity and NaN only. *)
Definition checkSpecialCases (bn other : BigNumber) : outcome unit :=
  if isInf bn || isInf other then Err UndefinedOperationError
  else if isNan bn || isNan other then Err UndefinedOperationError
  else Ok tt.

(** Add, Subtract and Multiply of the earlier draft. *)
Definition Add (bn other : BigNumber) : outcome BigNumber :=
  _ <- checkPrecision bn other ;;
  _ <- checkSpecialCases bn other ;;
  p <- Go.Add (positive bn) (positive other) ;;
  n <- Go.Add (negative bn) (negative other) ;;
  settle bn p n (precision bn).

Definition Subtract (bn other : BigNumber) : outcome BigNumber :=
  _ <- checkPrecision bn other ;;
  _ <- checkSpecialCases bn other ;;
  p <- Go.Sub (positive bn) (positive other) ;;
  n <- Go.Sub (negative bn) (negative other) ;;
  settle bn p n (precision bn).

Definition Multiply (bn other : BigNumber) : outcome BigNumber :=
  _ <- checkPrecision bn other ;;
  _ <- checkSpecialCases bn other ;;
  p <- Go.Mul (positive bn) (positive other) ;;
  n <- Go.Mul (negative bn) (negative other) ;;
  settle bn p n (Go.uint_add (precision bn) (precision other)).

End Draft.

Import Bignum.

(** Whether a call returned a value. *)
Definition returns {A : Type} (r : outcome A) : bool :=
  match r with
  | Ok _ => true
  | _ => false
  end.

(** A finite number as the constructor builds it: no flag set and all
    three integers allocated, with [value = positive - negative]. *)
Definition constructed (bn : BigNumber) (pos neg : Z) : Prop :=
  isInf bn = false /\ isNan bn = false /\
  positive bn = Some pos /\ negative bn = Some neg /\
  value bn = Some (pos - neg).

(** The numbers of the package's tests and README. *)
Definition bn_123_45 : BigNumber :=
  mkBigNumber (Some 123) (Some 45) 2 RoundToNearest false false (Some 78).
Definition bn_67_89 : BigNumber :=
  mkBigNumber (Some 67) (Some 89) 2 RoundToNearest false false (Some (-22)).
Definition bn_zero : BigNumber :=
  mkBigNumber (Some 0) (Some 0) 2 RoundToNearest false false (Some 0).
Definition bn_inf : BigNumber :=
  mkBigNumber None None 2 RoundToNearest true false None.
Definition bn_nan : BigNumber :=
  mkBigNumber None None 2 RoundToNearest false true None.

(** The scenarios of the README and of the tests, as a caller runs them. *)
Definition add_scenario (m : RoundingMode) : outcome (option Z * string) :=
  a <- NewBigNumber "123.4567" 4 m ;;
  b <- NewBigNumber "8.9012" 4 m ;;
  r <- Add a b ;;
  s <- BigNumber_String r ;;
  Ok (value r, s).

Definition round_scenario (round : BigNumber -> N -> outcome BigNumber)
           (text : string) (p : N) (m : RoundingMode) (target : N)
  : outcome (option Z * string) :=
  x <- NewBigNumber text p m ;;
  r <- round x target ;;
  s <- BigNumber_String r ;;
  Ok (value r, s).

Definition roundtrip (x : BigNumber) : outcome (string * option Z * bool) :=
  s <- BigNumber_String x ;;
  y <- NewBigNumber s (precision x) (rounding x) ;;
  e <- Equal y x ;;
  Ok (s, value y, e).

Definition multiply_scenario : outcome BigNumber :=
  a <- NewBigNumber "123.45" 2 RoundToNearest ;;
  b <- NewBigNumber "67.890" 3 RoundToNearest ;;
  Multiply a b.

Definition add_even_scenario : outcome (option Z) :=
  a <- NewBigNumber "12345" 2 RoundToEven ;;
  b <- NewBigNumber "0" 2 RoundToEven ;;
  r <- Add a b ;;
  Ok (value r).

(** What the rounding step of Add and Subtract leaves in [value], by
    rounding mode, for the raw result [s] at scale [scale]. *)
Definition stored (m : RoundingMode) (scale s : Z) : Z :=
  match m with
  | RoundUp | RoundDown => s
  | RoundToNearest => (s + scale / 2) / scale
  | RoundToEven =>
      let d := ((s + scale / 2) / scale) mod 10 in
      if d =? 5 then 0 else d
  end.

(** ** The grammar of the constructor's input and the magnitude the
    specification assigns to it *)

Fixpoint all_digits (s : string) : bool :=
  match s with
  | EmptyString => true
  | String c rest =>
      match Go.digit c with
      | Some _ => all_digits rest
      | None => false
      end
  end.

(** Optional minus sign, integer digits, optional point and fraction. *)
Definition grammar_text (neg : bool) (I : string) (F : option string)
  : string :=
  ((if neg then "-" else "") ++ I ++
   match F with Some f => "." ++ f | None => "" end)%string.

(** The number a run of decimal digits denotes. *)
Fixpoint digits_value_from (acc : Z) (s : string) : Z :=
  match s with
  | EmptyString => acc
  | String c rest =>
      digits_value_from (10 * acc + (Z.of_N (N_of_ascii c) - 48)) rest
  end.

Definition digits_value (s : string) : Z := digits_value_from 0 s.

(** The fraction cut or zero-padded on the right to exactly [p] digits. *)
Definition fit (f : string) (p : nat) : string :=
  substring 0 p (f ++ Go.Repeat0 p).

(** Follows the specification:
    magnitude = sign * (integerDigits * 10^precision +
    fractionalDigitsAsInteger), the fraction cut or padded to
    [precision] digits. *)
Definition spec_magnitude (neg : bool) (I : string) (F : option string)
           (p : N) : Z :=
  let f := match F with Some f => f | None => "" end in
  (if neg then -1 else 1) *
  (digits_value I * 10 ^ Z.of_N p + digits_value (fit f (N.to_nat p))).

(** What the constructor computes instead: the fraction, never cut, times
    the power of ten that pads it, is subtracted from the bare integer
    digits. *)
Definition code_fraction (F : option string) (p : N) : Z :=
  match F with
  | Some f =>
      digits_value f *
      Go.Exp10 (Go.int64 (Z.of_N p - Z.min (Go.len f) (Z.of_N p)))
  | None => 0
  end.

Definition code_parts (neg : bool) (I : string) (F : option string) (p : N)
  : Z * Z :=
  if neg then (code_fraction F p, digits_value I)
  else (digits_value I, code_fraction F p).

(** ** Measures for the loops of Exp and Log *)

(** How many increments take the 64-bit counter [i] to zero, through the
    wrap from [2^63 - 1] to [-2^63]. *)
Definition counter_distance (i : Z) : Z :=
  if i <=? 0 then - i else 2 ^ 64 - i.

(** Fuel that outlasts every run of the counter. *)
Definition enough_fuel : nat := S (Z.to_nat (2 ^ 64)).

(** A finite number holding the integer [x] at precision 0. *)
Definition whole (x : Z) : BigNumber :=
  mkBigNumber (Some x) (Some 0) 0 RoundDown false false (Some x).

(** The errors a call may return all satisfy [P]. *)
Definition only_errors {A : Type} (P : ErrorType -> Prop) (r : outcome A)
  : Prop :=
  match r with
  | Err e => P e
  | _ => True
  end.

Definition division_error (e : ErrorType) : Prop :=
  e = PrecisionError \/ e = UndefinedOperationError \/
  e = DivisionByZeroError.

(** ** Shared proof steps *)

Ltac case_outcome :=
  repeat match goal with
         | |- context [bind ?m _] =>
             match m with
             | Ok _ => unfold bind at 1
             | Err _ => unfold bind at 1
             | Panic _ => unfold bind at 1
             | _ => destruct m eqn:?; unfold bind at 1
             end
         | |- context [if ?b then _ else _] => destruct b eqn:?
         end.

(** ** The constructor on the test inputs *)

Lemma NewBigNumber_123_45 :
  NewBigNumber "123.45" 2 RoundToNearest = Ok bn_123_45.
Proof. vm_compute. reflexivity. Qed.

Lemma NewBigNumber_67_89 :
  NewBigNumber "67.89" 2 RoundToNearest = Ok bn_67_89.
Proof. vm_compute. reflexivity. Qed.

Lemma NewBigNumber_zero : NewBigNumber "0" 2 RoundToNearest = Ok bn_zero.
Proof. vm_compute. reflexivity. Qed.

Lemma NewBigNumber_inf : NewBigNumber "inf" 2 RoundToNearest = Ok bn_inf.
Proof. vm_compute. reflexivity. Qed.

Lemma NewBigNumber_nan : NewBigNumber "NaN" 2 RoundToNearest = Ok bn_nan.
Proof. vm_compute. reflexivity. Qed.

Lemma NewBigNumber_empty :
  forall p r, NewBigNumber "" p r = Err InvalidInputError.
Proof. intros p r. reflexivity. Qed.

(** ** Shared facts *)

Lemma IsZero_value (bn : BigNumber) (v : Z) :
  value bn = Some v -> IsZero bn = Ok (v =? 0).
Proof.
  intros Hv. unfold IsZero. rewrite Hv. simpl.
  f_equal. destruct v; reflexivity.
Qed.

Lemma checkPrecision_same (a b : BigNumber) :
  precision a = precision b -> checkPrecision a b = Ok tt.
Proof.
  intros H. unfold checkPrecision. rewrite H, N.eqb_refl. reflexivity.
Qed.

Lemma checkPrecision_differ (a b : BigNumber) :
  precision a <> precision b -> checkPrecision a b = Err PrecisionError.
Proof.
  intros H. unfold checkPrecision.
  destruct (N.eqb_spec (precision a) (precision b)); [contradiction|reflexivity].
Qed.

Lemma checkSpecialCases_finite (a b : BigNumber) (va vb : Z) :
  isInf a = false -> isNan a = false -> isInf b = false -> isNan b = false ->
  value a = Some va -> value b = Some vb ->
  checkSpecialCases a b =
  if (va =? 0) && (vb =? 0) then Err UndefinedOperationError else Ok tt.
Proof.
  intros Ia Na Ib Nb Ha Hb. unfold checkSpecialCases.
  rewrite Ia, Na, Ib, Nb. simpl.
  rewrite (IsZero_value a va Ha), (IsZero_value b vb Hb). simpl.
  destruct (va =? 0); simpl; [destruct (vb =? 0)|]; reflexivity.
Qed.

Lemma scaleForPrecision_pos (bn : BigNumber) : 0 < scaleForPrecision bn.
Proof.
  unfold scaleForPrecision, Go.Exp10.
  destruct (Go.int64 (Z.of_N (precision bn)) <=? 0) eqn:E; [lia|].
  apply Z.leb_gt in E. apply Z.pow_pos_nonneg; lia.
Qed.

(** ** Division *)

(** Past its three checks Divide always reaches the assignment through
    the nil pointer that [NewBigNumber("")] hands back. *)
Lemma Divide_never_returns (bn other : BigNumber) :
  returns (Divide bn other) = false.
Proof.
  unfold Divide. rewrite NewBigNumber_empty. simpl pointer_of.
  case_outcome; try reflexivity; discriminate.
Qed.

Lemma Modulo_never_returns (bn other : BigNumber) :
  returns (Modulo bn other) = false.
Proof.
  unfold Modulo. rewrite NewBigNumber_empty. simpl pointer_of.
  case_outcome; try reflexivity; discriminate.
Qed.

(** The only errors Divide and Modulo return are the three of their
    checks. *)
Lemma only_errors_bind {A B : Type} (P : ErrorType -> Prop)
      (m : outcome A) (k : A -> outcome B) :
  only_errors P m -> (forall a, only_errors P (k a)) ->
  only_errors P (bind m k).
Proof. destruct m; simpl; auto. Qed.

Lemma checks_errors (bn other : BigNumber) :
  only_errors division_error (checkPrecision bn other) /\
  only_errors division_error (checkSpecialCases bn other) /\
  only_errors division_error (IsZero other).
Proof.
  unfold checkPrecision, checkSpecialCases, IsZero, division_error.
  repeat split.
  - destruct (negb _); simpl; auto.
  - destruct (_ || _); simpl; auto.
    destruct (_ || _); simpl; auto.
    destruct (value bn) as [[| |]|]; simpl; auto;
      destruct (value other) as [[| |]|]; simpl; auto.
  - destruct (value other); simpl; auto.
Qed.

Lemma Divide_errors (bn other : BigNumber) :
  only_errors division_error (Divide bn other).
Proof.
  destruct (checks_errors bn other) as (H1 & H2 & H3).
  unfold Divide. rewrite NewBigNumber_empty. simpl pointer_of.
  apply only_errors_bind; [exact H1|intros _].
  apply only_errors_bind; [exact H2|intros _].
  apply only_errors_bind; [exact H3|intros z].
  destruct z; [right; right; reflexivity|].
  repeat first [ progress cbn [bind deref]
               | apply only_errors_bind; [|intros] ];
    try match goal with
        | |- only_errors _ (Go.Mul ?x ?y) => destruct x, y
        | |- only_errors _ (Go.Div ?x ?y) => unfold Go.Div; destruct (_ =? 0)
        | |- only_errors _ (Go.Mod ?x ?y) => unfold Go.Mod; destruct (_ =? 0)
        end; exact I.
Qed.

Lemma Modulo_errors (bn other : BigNumber) :
  only_errors division_error (Modulo bn other).
Proof.
  destruct (checks_errors bn other) as (H1 & H2 & H3).
  unfold Modulo. rewrite NewBigNumber_empty. simpl pointer_of.
  apply only_errors_bind; [exact H1|intros _].
  apply only_errors_bind; [exact H2|intros _].
  apply only_errors_bind; [exact H3|intros z].
  destruct z; [right; right; reflexivity|].
  repeat first [ progress cbn [bind deref]
               | apply only_errors_bind; [|intros] ];
    try match goal with
        | |- only_errors _ (Go.Mul ?x ?y) => destruct x, y
        | |- only_errors _ (Go.Div ?x ?y) => unfold Go.Div; destruct (_ =? 0)
        | |- only_errors _ (Go.Mod ?x ?y) => unfold Go.Mod; destruct (_ =? 0)
        end; exact I.
Qed.

(** What Divide and Modulo do on a zero divisor. *)
Lemma zero_divisor (a b : BigNumber) (va : Z) :
  isInf a = false -> isNan a = false -> isInf b = false -> isNan b = false ->
  precision a = precision b -> value a = Some va -> value b = Some 0 ->
  let e := if va =? 0 then UndefinedOperationError else DivisionByZeroError in
  Divide a b = Err e /\ Modulo a b = Err e.
Proof.
  intros Ia Na Ib Nb Hp Ha Hb e. subst e.
  unfold Divide, Modulo.
  rewrite (checkPrecision_same a b Hp).
  rewrite (checkSpecialCases_finite a b va 0 Ia Na Ib Nb Ha Hb).
  rewrite (IsZero_value b 0 Hb).
  destruct (va =? 0); simpl; split; reflexivity.
Qed.

(** ** Comparison *)

(** Two Infinite operands, and two NotANumber operands, compare equal. *)
Lemma specials_compare_equal (a b : BigNumber) :
  (isInf a && isInf b) || (isNan a && isNan b) = true ->
  Equal a b = Ok true /\ LessOrEqual a b = Ok true /\
  GreaterOrEqual a b = Ok true /\
  LessThan a b = Ok false /\ GreaterThan a b = Ok false.
Proof.
  intros H. unfold Equal, LessOrEqual, GreaterOrEqual, LessThan,
    GreaterThan, compare_with.
  rewrite H. repeat split.
Qed.

Lemma mixed_comparison_panics (same : bool) (test : Z -> bool)
      (a b : BigNumber) (v : Z) :
  value a = None -> value b = Some v ->
  (isInf a && isInf b) || (isNan a && isNan b) = false ->
  compare_with same test a b = Panic NilDereference /\
  compare_with same test b a = Panic NilDereference.
Proof.
  intros Ha Hb Hf. unfold compare_with.
  rewrite Hf, Ha, Hb.
  replace ((isInf b && isInf a) || (isNan b && isNan a))
    with ((isInf a && isInf b) || (isNan a && isNan b))
    by (destruct (isInf a), (isInf b), (isNan a), (isNan b); reflexivity).
  rewrite Hf. split; reflexivity.
Qed.

(** ** Rounding inside Add and Subtract *)

Lemma ediv_pos (x y : Z) : 0 < y -> Go.ediv x y = x / y.
Proof. intros H. unfold Go.ediv. apply Z.ltb_lt in H. rewrite H. reflexivity. Qed.

Lemma ediv_neg (x y : Z) : y < 0 -> Go.ediv x y = - (x / - y).
Proof.
  intros H. unfold Go.ediv.
  destruct (0 <? y) eqn:E; [apply Z.ltb_lt in E; lia|reflexivity].
Qed.

Lemma applyRounding_stored (bn : BigNumber) (s : Z) :
  applyRounding bn (Some s) =
  Ok (Some (stored (rounding bn) (scaleForPrecision bn) s)).
Proof.
  pose proof (scaleForPrecision_pos bn) as Hs.
  assert (Hz : (scaleForPrecision bn =? 0) = false) by (apply Z.eqb_neq; lia).
  unfold applyRounding, stored.
  destruct (rounding bn); try reflexivity.
  - simpl. rewrite Hz. rewrite !ediv_pos by lia. reflexivity.
  - simpl. rewrite Hz. rewrite !ediv_pos by lia. simpl.
    unfold Go.emod. simpl Z.abs.
    destruct (_ mod 10 =? 5) eqn:E; [|reflexivity].
    apply Z.eqb_eq in E. rewrite E. reflexivity.
Qed.

Lemma checkOperands_constructed (a b : BigNumber) (pa na pb nb : Z) :
  constructed a pa na -> constructed b pb nb ->
  precision a = precision b ->
  checkOperands a b =
  if (pa - na =? 0) && (pb - nb =? 0) then Err UndefinedOperationError
  else Ok tt.
Proof.
  intros (Ia & Na & _ & _ & Va) (Ib & Nb & _ & _ & Vb) Hp.
  unfold checkOperands. rewrite (checkPrecision_same a b Hp). simpl.
  apply checkSpecialCases_finite; assumption.
Qed.

(** Add and Subtract on constructed operands of one precision that are
    not both zero: the operation returns, and [value] holds the raw sum or
    difference after the rounding step of the left operand's mode. *)
Lemma Add_stored (a b : BigNumber) (pa na pb nb : Z) :
  constructed a pa na -> constructed b pb nb ->
  precision a = precision b ->
  (pa - na =? 0) && (pb - nb =? 0) = false ->
  Add a b =
  Ok (mkBigNumber (Some (pa + pb)) (Some (na + nb)) (precision a)
        (rounding a) false false
        (Some (stored (rounding a) (scaleForPrecision a)
                      ((pa - na) + (pb - nb))))).
Proof.
  intros Ca Cb Hp Hz. unfold Add.
  rewrite (checkOperands_constructed a b pa na pb nb Ca Cb Hp), Hz.
  destruct Ca as (_ & _ & Pa & Na & _), Cb as (_ & _ & Pb & Nb & _).
  rewrite Pa, Na, Pb, Nb. simpl.
  rewrite applyRounding_stored. simpl.
  do 3 f_equal. f_equal. lia.
Qed.

Lemma Subtract_stored (a b : BigNumber) (pa na pb nb : Z) :
  constructed a pa na -> constructed b pb nb ->
  precision a = precision b ->
  (pa - na =? 0) && (pb - nb =? 0) = false ->
  Subtract a b =
  Ok (mkBigNumber (Some (pa - pb)) (Some (na - nb)) (precision a)
        (rounding a) false false
        (Some (stored (rounding a) (scaleForPrecision a)
                      ((pa - na) - (pb - nb))))).
Proof.
  intros Ca Cb Hp Hz. unfold Subtract.
  rewrite (checkOperands_constructed a b pa na pb nb Ca Cb Hp), Hz.
  destruct Ca as (_ & _ & Pa & Na & _), Cb as (_ & _ & Pb & Nb & _).
  rewrite Pa, Na, Pb, Nb. simpl.
  rewrite applyRounding_stored. simpl.
  do 3 f_equal. f_equal. lia.
Qed.

(** ** Multiplication *)

Lemma Multiply_precision_error (a b : BigNumber) :
  precision a <> precision b -> Multiply a b = Err PrecisionError.
Proof.
  intros H. unfold Multiply, checkOperands.
  rewrite (checkPrecision_differ a b H). reflexivity.
Qed.

(** ** Round *)

(** Round in the tested draft: the digits stored do not depend on the
    target precision, only on the receiver's own scale and mode. *)
Lemma Round_stored (bn : BigNumber) (t : N) (v : Z) :
  t <> precision bn -> value bn = Some v ->
  Round bn t =
  Ok (mkBigNumber None None t (rounding bn) false false
        (Some (stored (rounding bn) (scaleForPrecision bn) v))).
Proof.
  intros Ht Hv. unfold Round.
  destruct (N.eqb_spec t (precision bn)); [contradiction|].
  rewrite Hv. simpl. rewrite applyRounding_stored. reflexivity.
Qed.



(** ** The constructor on the grammar *)

Lemma digit_char (c : ascii) (d : Z) :
  Go.digit c = Some d ->
  d = Z.of_N (N_of_ascii c) - 48 /\ Go.lower c = c /\
  Ascii.eqb c "." = false /\ Ascii.eqb c "-" = false /\
  Ascii.eqb c "+" = false /\ Ascii.eqb c "i" = false /\
  Ascii.eqb c "n" = false.
Proof.
  intros H.
  destruct c as [[] [] [] [] [] [] [] []];
    vm_compute in H; try discriminate H;
    injection H as <-; vm_compute; repeat split.
Qed.

Lemma scan_digits (s : string) :
  all_digits s = true ->
  forall acc count,
    Go.scan acc count s =
    (digits_value_from acc s, (count + String.length s)%nat, EmptyString).
Proof.
  induction s as [|c s IH]; intros Hd acc count; simpl in *.
  - rewrite Nat.add_0_r. reflexivity.
  - destruct (Go.digit c) as [d|] eqn:E; [|discriminate].
    destruct (digit_char c d E) as (-> & _).
    rewrite (IH Hd). f_equal. f_equal. lia.
Qed.

Lemma SetString_digits (c : ascii) (s : string) :
  all_digits (String c s) = true ->
  Go.SetString (String c s) = (digits_value (String c s), true).
Proof.
  intros Hd. unfold Go.SetString.
  assert (Hs : Go.scanSign (String c s) = (false, String c s)).
  { simpl in Hd. destruct (Go.digit c) as [d|] eqn:E; [|discriminate].
    destruct (digit_char c d E) as (_ & _ & _ & Hm & Hp & _).
    unfold Go.scanSign.
    destruct c as [[] [] [] [] [] [] [] []]; try reflexivity; discriminate. }
  rewrite Hs, (scan_digits _ Hd). reflexivity.
Qed.

Lemma Split_digits (s : string) :
  all_digits s = true -> Go.Split s = (s, []).
Proof.
  induction s as [|c s IH]; intros Hd; simpl in *; [reflexivity|].
  destruct (Go.digit c) as [d|] eqn:E; [|discriminate].
  destruct (digit_char c d E) as (_ & _ & -> & _).
  rewrite (IH Hd). reflexivity.
Qed.

Lemma Split_point (I f : string) :
  all_digits I = true -> all_digits f = true ->
  Go.Split (I ++ "." ++ f) = (I, [f]).
Proof.
  intros HI Hf. induction I as [|c I IH]; simpl in *.
  - rewrite (Split_digits f Hf). reflexivity.
  - destruct (Go.digit c) as [d|] eqn:E; [|discriminate].
    destruct (digit_char c d E) as (_ & _ & -> & _).
    rewrite (IH HI). reflexivity.
Qed.

Lemma Split_minus (s : string) :
  Go.Split (String "-" s) = (String "-" (fst (Go.Split s)), snd (Go.Split s)).
Proof. simpl. destruct (Go.Split s). reflexivity. Qed.

Lemma Split_body (I : string) (F : option string) :
  all_digits I = true ->
  match F with Some f => all_digits f = true | None => True end ->
  Go.Split (I ++ match F with Some f => "." ++ f | None => "" end) =
  (I, match F with Some f => [f] | None => [] end).
Proof.
  intros HI HF. destruct F as [f|].
  - apply Split_point; assumption.
  - replace (I ++ "")%string with I.
    + apply Split_digits; assumption.
    + clear. induction I; simpl; congruence.
Qed.

Lemma length_substring_0 (n : nat) (s : string) :
  String.length (substring 0 n s) = Nat.min n (String.length s).
Proof.
  revert s. induction n as [|n IH]; intros s; destruct s; simpl; auto.
Qed.

Lemma ToLower_head (c : ascii) (s : string) :
  (N_of_ascii c =? 196)%N = false ->
  Go.ToLower (String c s) = String (Go.lower c) (Go.ToLower s).
Proof.
  intros H. destruct s as [|c' s]; cbn [Go.ToLower]; [reflexivity|].
  rewrite H. reflexivity.
Qed.

Lemma digit_not_lead (c : ascii) (d : Z) :
  Go.digit c = Some d -> (N_of_ascii c =? 196)%N = false.
Proof.
  unfold Go.digit. intros H.
  destruct (_ && _) eqn:B; [|discriminate].
  apply andb_true_iff in B. destruct B as [_ B]. apply Z.leb_le in B.
  apply N.eqb_neq. lia.
Qed.

Lemma not_special (c : ascii) (s : string) :
  (N_of_ascii c =? 196)%N = false ->
  Ascii.eqb (Go.lower c) "i" = false ->
  Ascii.eqb (Go.lower c) "n" = false ->
  String.eqb (Go.ToLower (String c s)) "inf" = false /\
  String.eqb (Go.ToLower (String c s)) "nan" = false.
Proof.
  intros Hc Hi Hn. rewrite (ToLower_head c s Hc).
  split; simpl String.eqb; [rewrite Hi|rewrite Hn]; reflexivity.
Qed.

(** The fraction as the constructor scales it. *)
Lemma decimal_part (f : string) (p : N) :
  all_digits f = true ->
  (if 0 <? Go.len f then
     let '(d, _) := Go.SetString f in
     let decimalPart :=
       if Z.of_N p <? Go.len f then substring 0 (N.to_nat p) f else f in
     d * Go.Exp10 (Go.int64 (Z.of_N p - Go.len decimalPart))
   else 0) = code_fraction (Some f) p.
Proof.
  intros Hf. unfold code_fraction. destruct f as [|c f].
  - reflexivity.
  - replace (0 <? Go.len (String c f)) with true
      by (symmetry; apply Z.ltb_lt; unfold Go.len; simpl String.length; lia).
    rewrite (SetString_digits c f Hf).
    do 3 f_equal.
    destruct (Z.of_N p <? Go.len (String c f)) eqn:E.
    + apply Z.ltb_lt in E. unfold Go.len in *.
      rewrite length_substring_0. lia.
    + apply Z.ltb_ge in E. lia.
Qed.

(** On every text of the grammar the constructor returns a finite number
    whose two parts are the integer digits and the scaled fraction, and
    whose value is their difference. *)
Lemma NewBigNumber_grammar (neg : bool) (c : ascii) (I' : string)
      (F : option string) (p : N) (m : RoundingMode) :
  all_digits (String c I') = true ->
  match F with Some f => all_digits f = true | None => True end ->
  NewBigNumber (grammar_text neg (String c I') F) p m =
  Ok (mkBigNumber (Some (fst (code_parts neg (String c I') F p)))
                  (Some (snd (code_parts neg (String c I') F p)))
                  p m false false
                  (Some (fst (code_parts neg (String c I') F p) -
                         snd (code_parts neg (String c I') F p)))).
Proof.
  intros HI HF.
  pose proof (Split_body (String c I') F HI HF) as HS.
  pose proof (SetString_digits c I' HI) as HN.
  assert (Hc : exists d, Go.digit c = Some d).
  { simpl in HI. destruct (Go.digit c) as [d|]; [eauto|discriminate]. }
  destruct Hc as [d Hc].
  destruct (digit_char c d Hc) as (_ & Hl & _ & Hm & _ & Hi & Hn).
  assert (HD :
    (let decimalPart := match F with Some f => f | None => "" end in
     if 0 <? Go.len decimalPart then
       let '(d, _) := Go.SetString decimalPart in
       let decimalPart :=
         if Z.of_N p <? Go.len decimalPart
         then substring 0 (N.to_nat p) decimalPart else decimalPart in
       d * Go.Exp10 (Go.int64 (Z.of_N p - Go.len decimalPart))
     else 0) = code_fraction F p).
  { destruct F as [f|]; [apply decimal_part; assumption|reflexivity]. }
  cbv zeta in HD.
  unfold NewBigNumber, grammar_text, code_parts.
  destruct neg.
  - change ("-" ++ String c I' ++ ?t)%string
      with (String "-" (String c I' ++ t)).
    destruct (not_special "-" (String c I' ++
               match F with Some f => "." ++ f | None => "" end)
               eq_refl eq_refl eq_refl) as [-> ->].
    simpl String.eqb. rewrite Split_minus, HS. simpl fst. simpl snd.
    cbv iota beta. simpl Ascii.eqb. cbv iota beta.
    rewrite HN. simpl negb. cbv iota.
    destruct F as [f|]; cbv iota beta; rewrite HD; reflexivity.
  - change ("" ++ String c I' ++ ?t)%string with (String c (I' ++ t)).
    destruct (not_special c (I' ++
               match F with Some f => "." ++ f | None => "" end))
      as [-> ->];
      [exact (digit_not_lead c d Hc)|rewrite Hl; assumption..|].
    simpl String.eqb.
    change (String c (I' ++ ?t)) with (String c I' ++ t)%string.
    rewrite HS. rewrite Hm. cbv iota beta. rewrite HN. simpl negb. cbv iota.
    destruct F as [f|]; cbv iota beta; rewrite HD; reflexivity.
Qed.

(** ** Printing an integer and reading it back *)

Lemma string_of_uint_digits (d : Decimal.uint) :
  all_digits (NilEmpty.string_of_uint d) = true.
Proof. induction d; simpl; auto. Qed.

Lemma digits_value_from_uint (d : Decimal.uint) :
  forall acc : BinNums.positive,
    digits_value_from (Z.pos acc) (NilEmpty.string_of_uint d) =
    Z.pos (Pos.of_uint_acc d acc).
Proof.
  induction d; intros acc;
    cbn [NilEmpty.string_of_uint digits_value_from Pos.of_uint_acc];
    try reflexivity; rewrite <- IHd; f_equal;
    match goal with
    | |- context [N_of_ascii ?c] =>
        let v := eval vm_compute in (Z.of_N (N_of_ascii c)) in
        change (Z.of_N (N_of_ascii c)) with v
    end; lia.
Qed.

Lemma digits_value_uint (d : Decimal.uint) :
  digits_value (NilEmpty.string_of_uint d) = Z.of_N (Pos.of_uint d).
Proof.
  unfold digits_value.
  induction d;
    cbn [NilEmpty.string_of_uint digits_value_from Pos.of_uint];
    try reflexivity; try assumption;
    match goal with
    | |- context [N_of_ascii ?c] =>
        let v := eval vm_compute in (Z.of_N (N_of_ascii c)) in
        change (Z.of_N (N_of_ascii c)) with v
    end; simpl Z.add; apply digits_value_from_uint.
Qed.

Lemma append_empty (s : string) : (s ++ "")%string = s.
Proof. induction s; simpl; congruence. Qed.

(** The decimal text of a positive number: digits, at least one. *)
Lemma positive_text (q : BinNums.positive) :
  exists c s,
    NilZero.string_of_uint (Pos.to_uint q) = String c s /\
    all_digits (String c s) = true /\
    digits_value (String c s) = Z.pos q.
Proof.
  pose proof (Unsigned.to_uint_nonnil q) as Hn.
  pose proof (DecimalPos.Unsigned.of_to q) as Hv.
  pose proof (string_of_uint_digits (Pos.to_uint q)) as Hd.
  pose proof (digits_value_uint (Pos.to_uint q)) as Hq.
  rewrite Hv in Hq. simpl in Hq.
  assert (Hs : NilZero.string_of_uint (Pos.to_uint q) =
               NilEmpty.string_of_uint (Pos.to_uint q)).
  { destruct (Pos.to_uint q); [contradiction|reflexivity..]. }
  rewrite Hs.
  destruct (NilEmpty.string_of_uint (Pos.to_uint q)) as [|c s] eqn:E.
  - destruct (Pos.to_uint q); try contradiction; discriminate E.
  - exists c, s. auto.
Qed.

Lemma Int_String_shape (n : Z) :
  exists c s,
    all_digits (String c s) = true /\
    digits_value (String c s) = Z.abs n /\
    Go.Int_String n = grammar_text (n <? 0) (String c s) None.
Proof.
  unfold Go.Int_String, grammar_text. destruct n as [|q|q]; simpl Z.to_int.
  - exists "0"%char, EmptyString. repeat split.
  - destruct (positive_text q) as (c & s & Hs & Hd & Hv).
    exists c, s. simpl NilZero.string_of_int. rewrite Hs.
    simpl. rewrite append_empty. auto.
  - destruct (positive_text q) as (c & s & Hs & Hd & Hv).
    exists c, s. simpl NilZero.string_of_int. rewrite Hs.
    simpl. rewrite append_empty. auto.
Qed.

(** The constructor on the decimal text of an integer gives that integer. *)
Lemma NewBigNumber_Int_String (n : Z) (p : N) (m : RoundingMode) :
  NewBigNumber (Go.Int_String n) p m =
  Ok (mkBigNumber (Some (Z.max n 0)) (Some (Z.max (- n) 0)) p m
                  false false (Some n)).
Proof.
  destruct (Int_String_shape n) as (c & s & Hd & Hv & ->).
  rewrite (NewBigNumber_grammar _ c s None p m Hd I).
  unfold code_parts, code_fraction. rewrite Hv.
  destruct (n <? 0) eqn:E; simpl fst; simpl snd.
  - apply Z.ltb_lt in E. do 2 f_equal; f_equal; lia.
  - apply Z.ltb_ge in E. do 2 f_equal; f_equal; lia.
Qed.

Lemma reparse_stored (bn : BigNumber) (n : Z) :
  reparse bn n =
  Ok (mkBigNumber (Some (Z.max n 0)) (Some (Z.max (- n) 0))
        (precision bn) (rounding bn) false false
        (Some (stored (rounding bn) (scaleForPrecision bn) n))).
Proof.
  unfold reparse. rewrite NewBigNumber_Int_String. simpl.
  rewrite applyRounding_stored. reflexivity.
Qed.

(** ** The loops of Exp and Log *)

Lemma int64_small (z : Z) : - 2 ^ 63 <= z < 2 ^ 63 -> Go.int64 z = z.
Proof.
  intros H. unfold Go.int64. destruct (Z.neg_nonneg_cases z) as [Hn|Hp].
  - replace (z mod 2 ^ 64) with (z + 2 ^ 64).
    + destruct (z + 2 ^ 64 <? 2 ^ 63) eqn:E; [apply Z.ltb_lt in E|]; lia.
    + symmetry. rewrite <- (Z_mod_plus_full z 1 (2 ^ 64)).
      rewrite Z.mul_1_l. apply Z.mod_small. lia.
  - rewrite Z.mod_small by lia.
    destruct (z <? 2 ^ 63) eqn:E; [|apply Z.ltb_ge in E]; lia.
Qed.

Lemma int64_wrap : Go.int64 (2 ^ 63 - 1 + 1) = - 2 ^ 63.
Proof. vm_compute. reflexivity. Qed.

Lemma Div_some (a i : Z) :
  i <> 0 -> Go.Div (Some a) (Some i) = Ok (Go.ediv a i).
Proof.
  intros H. unfold Go.Div. apply Z.eqb_neq in H. rewrite H. reflexivity.
Qed.

(** The counter alone bounds the loop: whatever the operand, the loop has
    stopped by the time the counter has come round to zero. *)
Lemma Exp_loop_terminates (n : nat) :
  forall x term result i,
    - 2 ^ 63 <= i < 2 ^ 63 -> counter_distance i <= Z.of_nat n ->
    exists r, Exp_loop (S n) x term result i = Some r.
Proof.
  induction n as [|n IH]; intros x term result i Hi Hd;
    unfold counter_distance in Hd;
    cbn [Exp_loop]; destruct (Z.eq_dec i 0) as [-> | Hz].
  - eexists. reflexivity.
  - destruct (i <=? 0) eqn:E; [apply Z.leb_le in E|apply Z.leb_gt in E]; lia.
  - eexists. reflexivity.
  - rewrite (Div_some _ i Hz).
    destruct (Go.ediv (term * x) i <? 1); [eexists; reflexivity|].
    apply IH.
    + destruct (Z.eq_dec i (2 ^ 63 - 1)) as [-> | Hm].
      * rewrite int64_wrap. lia.
      * rewrite int64_small; lia.
    + unfold counter_distance.
      destruct (Z.eq_dec i (2 ^ 63 - 1)) as [-> | Hm].
      * rewrite int64_wrap. simpl in *. lia.
      * rewrite int64_small by lia.
        destruct (i <=? 0) eqn:E; [apply Z.leb_le in E|apply Z.leb_gt in E];
          destruct (i + 1 <=? 0) eqn:E'; try apply Z.leb_le in E';
          try apply Z.leb_gt in E'; lia.
Qed.

(** While the counter has not passed the operand no term drops below 1,
    so the loop is still running. *)
Lemma Exp_loop_runs (fuel : nat) :
  forall x term result i,
    1 <= term -> 1 <= i -> i + Z.of_nat fuel <= x + 1 -> x < 2 ^ 63 - 1 ->
    Exp_loop fuel x term result i = None.
Proof.
  induction fuel as [|fuel IH]; intros x term result i Ht Hi Hx Hr;
    cbn [Exp_loop]; [reflexivity|].
  rewrite Div_some by lia. rewrite ediv_pos by lia.
  assert (Hq : term <= term * x / i).
  { apply Z.div_le_lower_bound; nia. }
  destruct (term * x / i <? 1) eqn:E; [apply Z.ltb_lt in E; lia|].
  rewrite int64_small by lia.
  apply IH; lia.
Qed.

(** For an operand between 1 and 2^63 the loop never panics and its sum
    is not negative. *)
Lemma Exp_loop_nonneg (fuel : nat) :
  forall x term result i r,
    0 < x <= 2 ^ 63 -> 1 <= i < 2 ^ 63 \/ i = - 2 ^ 63 ->
    1 <= term <= result ->
    Exp_loop fuel x term result i = Some r ->
    exists R, r = Ok R /\ 0 <= R.
Proof.
  induction fuel as [|fuel IH]; intros x term result i r Hx Hi Ht;
    cbn [Exp_loop]; [discriminate|].
  rewrite Div_some by lia.
  destruct Hi as [Hi | ->].
  - rewrite ediv_pos by lia.
    assert (Hq : 0 <= term * x / i) by (apply Z.div_pos; nia).
    destruct (term * x / i <? 1) eqn:E.
    + intros [= <-]. eexists. split; [reflexivity|lia].
    + apply Z.ltb_ge in E. apply IH; try lia.
      destruct (Z.eq_dec i (2 ^ 63 - 1)) as [-> | Hm].
      * right. apply int64_wrap.
      * left. rewrite int64_small; lia.
  - rewrite ediv_neg by lia.
    replace (- - 2 ^ 63) with (2 ^ 63) by lia.
    assert (Hq : 0 <= term * x / 2 ^ 63 <= term).
    { split; [apply Z.div_pos; nia|apply Z.div_le_upper_bound; nia]. }
    destruct (- (term * x / 2 ^ 63) <? 1) eqn:E;
      [|apply Z.ltb_ge in E; lia].
    intros [= <-]. eexists. split; [reflexivity|lia].
Qed.

Lemma stored_nonneg (m : RoundingMode) (scale s : Z) :
  0 < scale -> 0 <= s -> 0 <= stored m scale s.
Proof.
  intros Hs H. assert (0 <= scale / 2) by (apply Z.div_pos; lia).
  destruct m; simpl; try assumption.
  - apply Z.div_pos; lia.
  - destruct (_ mod 10 =? 5); [lia|].
    apply Z.mod_pos_bound. lia.
Qed.

Lemma Exp_finite (fuel : nat) (bn : BigNumber) (x : Z) :
  isInf bn = false -> isNan bn = false -> value bn = Some x ->
  Exp fuel bn =
  match Exp_loop fuel x 1 1 1 with
  | None => None
  | Some r => Some (resultInt <- r ;; reparse bn resultInt)
  end.
Proof.
  intros Hi Hn Hv. unfold Exp. rewrite Hi, Hn, Hv. reflexivity.
Qed.

Lemma enough_fuel_start :
  - 2 ^ 63 <= 1 < 2 ^ 63 /\
  counter_distance 1 <= Z.of_nat (Z.to_nat (2 ^ 64)).
Proof.
  split; [lia|]. rewrite Z2Nat.id by lia. unfold counter_distance.
  change (1 <=? 0) with false. cbv iota. lia.
Qed.

(** Every call of Exp comes back, at the latest on the pass after the
    counter has wrapped, that is after 2^63 passes: a bound of the
    arithmetic, not an iteration count of the code. *)
Lemma Exp_terminates (bn : BigNumber) :
  exists r, Exp enough_fuel bn = Some r.
Proof.
  unfold Exp. destruct (isInf bn || isNan bn); [eexists; reflexivity|].
  destruct (value bn) as [x|]; cbn [Go.Set_]; [|eexists; reflexivity].
  destruct enough_fuel_start as [Hi Hd].
  destruct (Exp_loop_terminates _ x 1 1 1 Hi Hd) as [r Hr].
  unfold enough_fuel. rewrite Hr. eexists. reflexivity.
Qed.

(** One pass of Log's loop on a non-negative Exp value: the divisor is
    zero and the division panics, or the quotient is below 1 and the loop
    is left. *)
Lemma Log_loop_first_pass (fuel passes : nat) (bn : BigNumber) (x y E : Z) :
  0 < x -> 0 <= E ->
  Log_loop fuel (S passes) bn x y (Some E) =
  Some (if E =? 0 then Panic DivideByZero else Ok (y - (E - x) / E)).
Proof.
  intros Hx HE. cbn [Log_loop Go.Sub Go.lift2 bind].
  unfold Go.Div. destruct (E =? 0) eqn:Ez; [reflexivity|].
  apply Z.eqb_neq in Ez. rewrite ediv_pos by lia.
  assert (Hq : (E - x) / E < 1) by (apply Z.div_lt_upper_bound; lia).
  apply Z.ltb_lt in Hq. rewrite Hq. reflexivity.
Qed.

(** If the first quotient is not below 1 the loop never ends: every pass
    recomputes the same Exp value from the unchanged receiver. *)
Lemma Log_loop_stuck (fuel : nat) (bn : BigNumber) (x E : Z) :
  Log_exp fuel bn = Some (Ok (Some E)) ->
  E <> 0 -> 1 <= Go.ediv (E - x) E ->
  forall passes y, Log_loop fuel passes bn x y (Some E) = None.
Proof.
  intros He Ez Hd passes.
  induction passes as [|passes IH]; intros y; [reflexivity|].
  cbn [Log_loop Go.Sub Go.lift2 bind]. rewrite (Div_some _ E Ez).
  destruct (Go.ediv (E - x) E <? 1) eqn:El; [apply Z.ltb_lt in El; lia|].
  rewrite He. apply IH.
Qed.

Lemma Log_exp_nonneg (bn : BigNumber) (x : Z) :
  isInf bn = false -> isNan bn = false -> value bn = Some x ->
  0 < x <= 2 ^ 63 ->
  exists E, Log_exp enough_fuel bn = Some (Ok (Some E)) /\ 0 <= E.
Proof.
  intros Hi Hn Hv Hx. unfold Log_exp. rewrite (Exp_finite _ bn x Hi Hn Hv).
  destruct enough_fuel_start as [Hr Hd].
  destruct (Exp_loop_terminates _ x 1 1 1 Hr Hd) as [r Hl].
  change (S (Z.to_nat (2 ^ 64))) with enough_fuel in Hl.
  rewrite Hl.
  destruct (Exp_loop_nonneg _ x 1 1 1 r Hx ltac:(left; lia) ltac:(lia) Hl)
    as (R & -> & HR).
  cbn [bind]. rewrite reparse_stored. cbn [pointer_of bind deref value].
  rewrite applyRounding_stored.
  pose proof (scaleForPrecision_pos bn) as Hs.
  eexists. split; [reflexivity|].
  apply stored_nonneg; [assumption|]. apply stored_nonneg; assumption.
Qed.

(** Every call of Log on an operand of at most 2^63 comes back. *)
Lemma Log_terminates (bn : BigNumber) :
  (forall x, value bn = Some x -> x <= 2 ^ 63) ->
  exists r, Log enough_fuel bn = Some r.
Proof.
  intros Hb. unfold Log.
  destruct (isInf bn || isNan bn) eqn:Hf; [eexists; reflexivity|].
  apply orb_false_elim in Hf. destruct Hf as [Hi Hn].
  destruct (value bn) as [x|] eqn:Hv.
  - rewrite (IsZero_value bn x Hv).
    destruct (x =? 0) eqn:Ez; [eexists; reflexivity|].
    apply Z.eqb_neq in Ez.
    destruct (Z.sgn x <? 0) eqn:Es; [eexists; reflexivity|].
    apply Z.ltb_ge in Es.
    assert (Hx : 0 < x <= 2 ^ 63).
    { split; [|apply Hb; reflexivity].
      destruct x; simpl in Es; lia. }
    destruct (Log_exp_nonneg bn x Hi Hn Hv Hx) as (E & -> & HE).
    unfold enough_fuel at 2.
    rewrite (Log_loop_first_pass _ _ bn x 1 E (proj1 Hx) HE).
    eexists. reflexivity.
  - unfold IsZero. rewrite Hv. eexists. reflexivity.
Qed.

(** From an operand of 2^65 on, every term is at least four times the
    one before it while the counter is positive, so the loop of Exp is
    left only on the pass after the counter has wrapped to -2^63; the
    term of that pass is negative and takes the sum below zero. *)
Lemma Exp_loop_negative (fuel : nat) :
  forall x term result i r,
    2 ^ 65 <= x -> 1 <= i < 2 ^ 63 \/ i = - 2 ^ 63 ->
    1 <= term -> result <= 2 * term ->
    Exp_loop fuel x term result i = Some r ->
    exists R, r = Ok R /\ R < 0.
Proof.
  induction fuel as [|fuel IH]; intros x term result i r Hx Hi Ht Hr;
    cbn [Exp_loop]; [discriminate|].
  rewrite Div_some by lia.
  destruct Hi as [Hi | ->].
  - rewrite ediv_pos by lia.
    assert (Hq : 4 * term <= term * x / i).
    { apply Z.div_le_lower_bound; [lia|]. nia. }
    destruct (term * x / i <? 1) eqn:E; [apply Z.ltb_lt in E; lia|].
    apply IH; try lia.
    destruct (Z.eq_dec i (2 ^ 63 - 1)) as [-> | Hm].
    + right. apply int64_wrap.
    + left. rewrite int64_small; lia.
  - rewrite ediv_neg by lia.
    replace (- - 2 ^ 63) with (2 ^ 63) by lia.
    assert (Hq : 4 * term <= term * x / 2 ^ 63).
    { apply Z.div_le_lower_bound; [lia|]. nia. }
    destruct (- (term * x / 2 ^ 63) <? 1) eqn:E;
      [|apply Z.ltb_ge in E; lia].
    intros [= <-]. eexists. split; [reflexivity|lia].
Qed.

(** On such an operand, under a mode that leaves the value as it is, the
    Exp value Log works with is negative whenever Exp returns. *)
Lemma Log_exp_negative (fuel : nat) (bn : BigNumber) (x : Z) :
  isInf bn = false -> isNan bn = false -> value bn = Some x ->
  2 ^ 65 <= x -> rounding bn = RoundUp \/ rounding bn = RoundDown ->
  Log_exp fuel bn = None \/
  exists E, Log_exp fuel bn = Some (Ok (Some E)) /\ E < 0.
Proof.
  intros Hi Hn Hv Hx Hm. unfold Log_exp.
  rewrite (Exp_finite _ bn x Hi Hn Hv).
  destruct (Exp_loop fuel x 1 1 1) as [r|] eqn:Hl; [right|left; reflexivity].
  destruct (Exp_loop_negative _ x 1 1 1 r Hx ltac:(left; lia) ltac:(lia)
              ltac:(lia) Hl) as (R & -> & HR).
  cbn [bind]. rewrite reparse_stored. cbn [pointer_of bind deref value].
  rewrite applyRounding_stored.
  exists R. split; [|assumption].
  destruct Hm as [-> | ->]; reflexivity.
Qed.

(** Log on such an operand does not come back, whatever the number of
    passes allowed: Exp never returns, or its value is negative, the
    quotient of the first pass is at least 1, and every later pass
    computes the same quotient from the same Exp value. *)
Lemma Log_large_operand (fuel : nat) (bn : BigNumber) (x : Z) :
  isInf bn = false -> isNan bn = false -> value bn = Some x ->
  2 ^ 65 <= x -> rounding bn = RoundUp \/ rounding bn = RoundDown ->
  Log fuel bn = None.
Proof.
  intros Hi Hn Hv Hx Hm. unfold Log. rewrite Hi, Hn. cbn [orb].
  rewrite (IsZero_value bn x Hv), Hv.
  replace (x =? 0) with false by (symmetry; apply Z.eqb_neq; lia).
  replace (Z.sgn x <? 0) with false
    by (symmetry; apply Z.ltb_ge; apply Z.sgn_nonneg; lia).
  destruct (Log_exp_negative fuel bn x Hi Hn Hv Hx Hm)
    as [He | (E & He & HE)]; rewrite He; [reflexivity|].
  rewrite (Log_loop_stuck fuel bn x E He); [reflexivity|lia|].
  rewrite ediv_neg by lia.
  assert (Hq : (E - x) / - E < -1).
  { apply Z.div_lt_upper_bound; lia. }
  lia.
Qed.

Lemma scaleForPrecision_pow (bn : BigNumber) :
  Z.of_N (precision bn) < 2 ^ 63 ->
  scaleForPrecision bn = 10 ^ Z.of_N (precision bn).
Proof.
  intros H. unfold scaleForPrecision.
  rewrite int64_small by lia. unfold Go.Exp10.
  destruct (Z.of_N (precision bn) <=? 0) eqn:E; [|reflexivity].
  apply Z.leb_le in E. replace (Z.of_N (precision bn)) with 0 by lia.
  reflexivity.
Qed.

(** * The claims *)

(** C1 (the code departs from it). The claim: on a text of the grammar the
    constructor stores sign * (integerDigits * 10^p + fraction cut or
    padded to p digits). The code stores the integer digits, unscaled,
    minus the fraction: "123.45" at precision 2 gives 123 - 45 = 78 where
    the claim gives 12345, "5" gives 5 where the claim gives 500, and the
    fraction of "123.456789" at precision 5 is not cut to 45678. *)
Theorem C1_constructor_subtracts_fraction :
  NewBigNumber "123.45" 2 RoundToNearest =
    Ok (mkBigNumber (Some 123) (Some 45) 2 RoundToNearest false false
                    (Some 78)) /\
  spec_magnitude false "123" (Some "45") 2 = 12345 /\
  NewBigNumber "5" 2 RoundToNearest =
    Ok (mkBigNumber (Some 5) (Some 0) 2 RoundToNearest false false
                    (Some 5)) /\
  spec_magnitude false "5" None 2 = 500 /\
  NewBigNumber "123.456789" 5 RoundToNearest =
    Ok (mkBigNumber (Some 123) (Some 456789) 5 RoundToNearest false false
                    (Some (-456666))) /\
  spec_magnitude false "123" (Some "456789") 5 = 12345678.
Proof. vm_compute. repeat split. Qed.

(** C2 (the code departs from it). The claim: Add of two finite operands
    of one precision succeeds with the exact sum of the magnitudes, and
    "123.4567" + "8.9012" at precision 4 renders "132.3579". The code
    renders "-1.3448" under RoundUp and RoundDown, "-000.1" under
    RoundToNearest and "000.9" under RoundToEven, and Add of two zeros
    fails with UndefinedOperation. *)
Theorem C2_Add_scenario :
  add_scenario RoundUp = Ok (Some (-13448), "-1.3448") /\
  add_scenario RoundDown = Ok (Some (-13448), "-1.3448") /\
  add_scenario RoundToNearest = Ok (Some (-1), "-000.1") /\
  add_scenario RoundToEven = Ok (Some 9, "000.9") /\
  Add bn_zero bn_zero = Err UndefinedOperationError.
Proof. vm_compute. repeat split. Qed.

(** C3 (the code departs from it). The claim: Round(t) rescales the
    magnitude to t digits under the stored mode, and "123.456789" at
    precision 5 rounded to 2 under RoundToNearest renders "123.46". The
    earlier draft's Round hands the digits over unchanged and renders
    "-4566.66"; the tested draft's Round divides by the receiver's own
    scale and renders "-0.5". Raising the precision of "123.45" from 2 to
    4 keeps the digits 78 in the earlier draft (a hundredth of the
    number) and stores 1 in the tested one; RoundDown stores the digits
    unchanged in both. *)
Theorem C3_Round_scenario :
  round_scenario Draft.Round "123.456789" 5 RoundToNearest 2 =
    Ok (Some (-456666), "-4566.66") /\
  round_scenario Round "123.456789" 5 RoundToNearest 2 =
    Ok (Some (-5), "-0.5") /\
  round_scenario Draft.Round "123.45" 2 RoundToNearest 4 =
    Ok (Some 78, "00.78") /\
  round_scenario Round "123.45" 2 RoundToNearest 4 =
    Ok (Some 1, "000.1") /\
  round_scenario Draft.Round "123.456789" 5 RoundDown 2 =
    Ok (Some (-456666), "-4566.66") /\
  round_scenario Round "123.456789" 5 RoundDown 2 =
    Ok (Some (-456666), "-4566.66").
Proof. vm_compute. repeat split. Qed.

(** C4 (the code departs from it). The claim: with finite operands of one
    precision and a non-zero divisor Divide returns a quotient and never
    crashes. In the code neither Divide nor Modulo ever returns a value:
    past the checks both assign through the nil pointer that
    [NewBigNumber("")] returned; 123.45 / 67.89 panics. The errors they
    do return are of the three kinds the claim names. *)
Theorem C4_Divide_never_returns :
  Divide bn_123_45 bn_67_89 = Panic NilDereference /\
  Modulo bn_123_45 bn_67_89 = Panic NilDereference /\
  (forall bn other, returns (Divide bn other) = false) /\
  (forall bn other, returns (Modulo bn other) = false) /\
  (forall bn other, only_errors division_error (Divide bn other)) /\
  (forall bn other, only_errors division_error (Modulo bn other)).
Proof.
  split; [vm_compute; reflexivity|].
  split; [vm_compute; reflexivity|].
  split; [exact Divide_never_returns|].
  split; [exact Modulo_never_returns|].
  split; [exact Divide_errors|exact Modulo_errors].
Qed.

(** C5 (the code departs from it). The claim: Multiply never fails with a
    Precision error and its result has precision p1 + p2. The code runs
    the precision check of Add: "123.45" at precision 2 times "67.890" at
    precision 3 fails with PrecisionError. *)
Theorem C5_Multiply_rejects_unequal_precision :
  multiply_scenario = Err PrecisionError.
Proof. vm_compute. reflexivity. Qed.

(** C6, as stated, fails when the dividend is zero too: 0 / 0 and 0 mod 0
    fail with UndefinedOperation, not DivisionByZero. *)
Lemma C6_zero_by_zero :
  NewBigNumber "0" 2 RoundToNearest = Ok bn_zero /\
  Divide bn_zero bn_zero = Err UndefinedOperationError /\
  Modulo bn_zero bn_zero = Err UndefinedOperationError /\
  Divide bn_zero bn_zero <> Err DivisionByZeroError /\
  Modulo bn_zero bn_zero <> Err DivisionByZeroError.
Proof. vm_compute. repeat split; discriminate. Qed.

(** C6 (amended): for finite operands of one precision and a zero
    divisor, Divide and Modulo fail with DivisionByZero when the dividend
    is not zero, and with UndefinedOperation when it is zero. *)
Theorem C6_zero_divisor (a b : BigNumber) (va : Z) :
  isInf a = false -> isNan a = false -> isInf b = false -> isNan b = false ->
  precision a = precision b -> value a = Some va -> value b = Some 0 ->
  (va <> 0 ->
   Divide a b = Err DivisionByZeroError /\
   Modulo a b = Err DivisionByZeroError) /\
  (va = 0 ->
   Divide a b = Err UndefinedOperationError /\
   Modulo a b = Err UndefinedOperationError).
Proof.
  intros Ia Na Ib Nb Hp Ha Hb.
  pose proof (zero_divisor a b va Ia Na Ib Nb Hp Ha Hb) as H.
  cbv zeta in H. split; intros Hv.
  - apply Z.eqb_neq in Hv. rewrite Hv in H. exact H.
  - apply Z.eqb_eq in Hv. rewrite Hv in H. exact H.
Qed.

Lemma C6_zero_divisor_witness :
  Divide bn_123_45 bn_zero = Err DivisionByZeroError /\
  Modulo bn_123_45 bn_zero = Err DivisionByZeroError.
Proof.
  apply (C6_zero_divisor bn_123_45 bn_zero 78
           eq_refl eq_refl eq_refl eq_refl eq_refl eq_refl eq_refl).
  discriminate.
Defined.

(** C7 (the code departs from it). The claim: every call of Log and Exp
    terminates, the loop being bounded by an explicit maximum iteration
    count. The loops are bare [for] loops with no such count. Log on the
    number the constructor builds from "73786976294838206464" (2^66) at
    precision 0 under RoundDown never returns, and neither does Log on
    any finite operand of at least 2^65 under RoundUp or RoundDown: the
    loop of Exp runs until its 64-bit counter has wrapped and then leaves
    a negative sum, the quotient Log computes from it is not below 1, and
    the next pass calls Exp on the unchanged receiver and computes the
    same quotient again. The passes of Exp are not bounded either: the
    operand [cap + 1] keeps its loop running for more than [cap] passes,
    for every [cap] below 2^62. *)
Theorem C7_Log_never_returns :
  NewBigNumber "73786976294838206464" 0 RoundDown = Ok (whole (2 ^ 66)) /\
  (forall fuel : nat, Log fuel (whole (2 ^ 66)) = None) /\
  (forall (fuel : nat) (bn : BigNumber) (x : Z),
      isInf bn = false -> isNan bn = false -> value bn = Some x ->
      2 ^ 65 <= x -> rounding bn = RoundUp \/ rounding bn = RoundDown ->
      Log fuel bn = None) /\
  (forall cap : nat,
      Z.of_nat cap < 2 ^ 62 -> Exp cap (whole (Z.of_nat cap + 1)) = None).
Proof.
  split; [vm_compute; reflexivity|].
  split.
  { intros fuel.
    apply (Log_large_operand fuel (whole (2 ^ 66)) (2 ^ 66));
      try reflexivity; [lia|right; reflexivity]. }
  split; [exact Log_large_operand|].
  intros cap Hc. unfold Exp. cbn [whole isInf isNan value orb Go.Set_].
  rewrite Exp_loop_runs by lia. reflexivity.
Qed.

(** C8 (the code departs from it). The claim: parsing the rendering of a
    finite x at x's precision and mode gives a value equal to x. For the
    value the constructor builds from "123.45" at precision 2 the
    rendering is "0.78" and parsing it gives -78, not 78; at precision 0
    every value renders as "0", so 5 comes back as 0. *)
Theorem C8_roundtrip_fails :
  roundtrip bn_123_45 = Ok ("0.78", Some (-78), false) /\
  roundtrip (whole 5) = Ok ("0", Some 0, false).
Proof. vm_compute. repeat split. Qed.

(** C9 (the code departs from it). The claim: the five comparisons are
    total, two Infinite or two NotANumber operands compare equal, and a
    comparison of Infinite or NotANumber with a Finite value returns a
    boolean. In the code the first two hold, but every comparison
    between the constructor's Infinite or NotANumber (whose value is nil)
    and a finite number panics, and Infinite compares equal to
    NotANumber. *)
Theorem C9_mixed_comparisons_panic :
  Equal bn_inf bn_inf = Ok true /\
  Equal bn_nan bn_nan = Ok true /\
  Equal bn_inf bn_nan = Ok true /\
  LessThan bn_123_45 bn_inf = Panic NilDereference /\
  GreaterThan bn_inf bn_123_45 = Panic NilDereference /\
  LessOrEqual bn_123_45 bn_nan = Panic NilDereference /\
  GreaterOrEqual bn_nan bn_123_45 = Panic NilDereference /\
  Equal bn_123_45 bn_inf = Panic NilDereference.
Proof. vm_compute. repeat split. Qed.

(** C10 (the code departs from it). The claim: under RoundToNearest and
    RoundToEven the sum is increased by half of 10^p and integer-divided
    by 10^p before it is stored. Under RoundToEven the code goes on to
    overwrite that quotient with its own last digit: 12345 + 0 at
    precision 2 gives the raw sum 12345, and (12345 + 50) / 100 is 123,
    the value the package's test of the rounding step expects
    (12346 / 100), but the value stored is 3, as it is when the rounding
    step is called on 12345 directly. *)
Theorem C10_RoundToEven_stores_last_digit :
  add_even_scenario = Ok (Some 3) /\
  applyRounding (literal 2 RoundToEven) (Some 12345) = Ok (Some 3) /\
  (12345 + 0 + 10 ^ 2 / 2) / 10 ^ 2 = 123 /\
  12346 / 100 = 123.
Proof. vm_compute. repeat split. Qed.

(** * Further properties of the package *)

(** ** The constructor *)

Lemma NewBigNumber_result (str : string) (p : N) (m : RoundingMode)
      (bn : BigNumber) :
  NewBigNumber str p m = Ok bn ->
  precision bn = p /\ rounding bn = m /\
  ((isInf bn = true /\ isNan bn = false /\
    positive bn = None /\ negative bn = None /\ value bn = None) \/
   (isInf bn = false /\ isNan bn = true /\
    positive bn = None /\ negative bn = None /\ value bn = None) \/
   exists pos neg, constructed bn pos neg).
Proof.
  unfold NewBigNumber.
  destruct (String.eqb (Go.ToLower str) "inf");
    [intros [= <-]; simpl; auto 10|].
  destruct (String.eqb (Go.ToLower str) "nan");
    [intros [= <-]; simpl; auto 10|].
  destruct (String.eqb str ""); [discriminate|].
  destruct (Go.Split str) as [integerPart more].
  destruct integerPart as [|c rest]; [discriminate|].
  destruct (Ascii.eqb c "-"); cbv beta iota zeta;
    set (D := if 0 <? Go.len _ then _ else 0); clearbody D;
    match goal with
    | |- context [Go.SetString ?s] => destruct (Go.SetString s) as [n ok]
    end;
    (destruct ok; simpl negb; cbv iota; [|discriminate]);
    simpl (_ =? 1); cbv iota;
    intros [= <-]; simpl; (split; [reflexivity|]);
    (split; [reflexivity|]); right; right;
    eexists; eexists; repeat split.
Qed.

(** X1: whatever the text, a number the constructor returns carries the
    precision and the rounding mode it was given, and it is either
    Infinite or NotANumber with all three integers nil, or finite with
    all three allocated and value = positive - negative. *)
Theorem X1_constructor_result (str : string) (p : N) (m : RoundingMode)
        (bn : BigNumber) :
  NewBigNumber str p m = Ok bn ->
  precision bn = p /\ rounding bn = m /\
  ((isInf bn = true /\ isNan bn = false /\
    positive bn = None /\ negative bn = None /\ value bn = None) \/
   (isInf bn = false /\ isNan bn = true /\
    positive bn = None /\ negative bn = None /\ value bn = None) \/
   exists pos neg, constructed bn pos neg).
Proof. exact (NewBigNumber_result str p m bn). Qed.

Lemma X1_constructor_result_witness :
  precision bn_123_45 = 2%N /\ rounding bn_123_45 = RoundToNearest /\
  ((isInf bn_123_45 = true /\ isNan bn_123_45 = false /\
    positive bn_123_45 = None /\ negative bn_123_45 = None /\
    value bn_123_45 = None) \/
   (isInf bn_123_45 = false /\ isNan bn_123_45 = true /\
    positive bn_123_45 = None /\ negative bn_123_45 = None /\
    value bn_123_45 = None) \/
   exists pos neg, constructed bn_123_45 pos neg).
Proof.
  apply (X1_constructor_result "123.45" 2 RoundToNearest bn_123_45).
  vm_compute. reflexivity.
Defined.

(** X2: on every text of the grammar (optional '-', one or more integer
    digits, optionally '.' and fraction digits) the constructor returns a
    finite number whose halves are the integer digits, unscaled, and the
    fraction digits, all of them, times 10^(precision - number of
    fraction digits) when there are fewer than [precision]; a leading '-'
    swaps the halves, and the value is positive - negative. *)
Theorem X2_constructor_on_grammar (neg : bool) (c : ascii) (I' : string)
        (F : option string) (p : N) (m : RoundingMode) :
  all_digits (String c I') = true ->
  match F with Some f => all_digits f = true | None => True end ->
  let int := digits_value (String c I') in
  let frac :=
    match F with
    | Some f =>
        digits_value f *
        Go.Exp10 (Go.int64 (Z.of_N p - Z.min (Go.len f) (Z.of_N p)))
    | None => 0
    end in
  NewBigNumber (grammar_text neg (String c I') F) p m =
  Ok (if neg
      then mkBigNumber (Some frac) (Some int) p m false false
                       (Some (frac - int))
      else mkBigNumber (Some int) (Some frac) p m false false
                       (Some (int - frac))).
Proof.
  intros HI HF int frac.
  rewrite (NewBigNumber_grammar neg c I' F p m HI HF).
  unfold code_parts. destruct neg; reflexivity.
Qed.

Lemma X2_constructor_on_grammar_witness :
  NewBigNumber "-123.4" 2 RoundDown =
  Ok (mkBigNumber (Some 40) (Some 123) 2 RoundDown false false
                  (Some (-83))).
Proof.
  exact (X2_constructor_on_grammar true "1" "23" (Some "4") 2 RoundDown
           eq_refl eq_refl).
Defined.

(** X3: a text that begins with the point, such as ".5", makes the
    constructor panic: the integer part is empty and its first byte is
    read without a length test. *)
Theorem X3_leading_point_panics (s : string) (p : N) (m : RoundingMode) :
  NewBigNumber (String "." s) p m = Panic IndexOutOfRange.
Proof.
  unfold NewBigNumber.
  destruct (not_special "." s eq_refl eq_refl eq_refl) as [-> ->].
  simpl String.eqb. simpl Go.Split.
  destruct (Go.Split s). reflexivity.
Qed.

(** ** The checks of the arithmetic operations *)

(** X4: with operands of different precision Add, Subtract, Multiply,
    Divide and Modulo all fail with PrecisionError, whatever else the
    operands are (Infinite, NotANumber, zero, or with nil integers): the
    precision check comes first. *)
Theorem X4_precision_checked_first (a b : BigNumber) :
  precision a <> precision b ->
  Add a b = Err PrecisionError /\ Subtract a b = Err PrecisionError /\
  Multiply a b = Err PrecisionError /\ Divide a b = Err PrecisionError /\
  Modulo a b = Err PrecisionError.
Proof.
  intros H. unfold Add, Subtract, Multiply, Divide, Modulo, checkOperands.
  rewrite (checkPrecision_differ a b H). repeat split.
Qed.

Lemma X4_precision_checked_first_witness :
  Add bn_inf (whole 0) = Err PrecisionError /\
  Subtract bn_inf (whole 0) = Err PrecisionError /\
  Multiply bn_inf (whole 0) = Err PrecisionError /\
  Divide bn_inf (whole 0) = Err PrecisionError /\
  Modulo bn_inf (whole 0) = Err PrecisionError.
Proof.
  apply (X4_precision_checked_first bn_inf (whole 0)). discriminate.
Defined.

(** X5: with operands of one precision of which one is Infinite or
    NotANumber, Add, Subtract, Multiply, Divide and Modulo all fail with
    UndefinedOperationError. *)
Theorem X5_special_operand_rejected (a b : BigNumber) :
  precision a = precision b ->
  isInf a || isInf b || (isNan a || isNan b) = true ->
  Add a b = Err UndefinedOperationError /\
  Subtract a b = Err UndefinedOperationError /\
  Multiply a b = Err UndefinedOperationError /\
  Divide a b = Err UndefinedOperationError /\
  Modulo a b = Err UndefinedOperationError.
Proof.
  intros Hp Hs.
  assert (Hc : checkSpecialCases a b = Err UndefinedOperationError).
  { unfold checkSpecialCases.
    destruct (isInf a || isInf b); [reflexivity|].
    simpl in Hs. rewrite Hs. reflexivity. }
  unfold Add, Subtract, Multiply, Divide, Modulo, checkOperands.
  rewrite (checkPrecision_same a b Hp). cbn [bind]. rewrite Hc.
  repeat split.
Qed.

Lemma X5_special_operand_rejected_witness :
  Add bn_123_45 bn_nan = Err UndefinedOperationError /\
  Subtract bn_123_45 bn_nan = Err UndefinedOperationError /\
  Multiply bn_123_45 bn_nan = Err UndefinedOperationError /\
  Divide bn_123_45 bn_nan = Err UndefinedOperationError /\
  Modulo bn_123_45 bn_nan = Err UndefinedOperationError.
Proof.
  apply (X5_special_operand_rejected bn_123_45 bn_nan); reflexivity.
Defined.

(** X6: two finite operands of one precision whose values are both zero
    are rejected by all five operations with UndefinedOperationError, so
    0 + 0, 0 - 0 and 0 * 0 have no result. *)
Theorem X6_two_zeros_rejected (a b : BigNumber) :
  precision a = precision b ->
  isInf a = false -> isNan a = false -> isInf b = false -> isNan b = false ->
  value a = Some 0 -> value b = Some 0 ->
  Add a b = Err UndefinedOperationError /\
  Subtract a b = Err UndefinedOperationError /\
  Multiply a b = Err UndefinedOperationError /\
  Divide a b = Err UndefinedOperationError /\
  Modulo a b = Err UndefinedOperationError.
Proof.
  intros Hp Ia Na Ib Nb Ha Hb.
  pose proof (checkSpecialCases_finite a b 0 0 Ia Na Ib Nb Ha Hb) as Hc.
  simpl in Hc.
  unfold Add, Subtract, Multiply, Divide, Modulo, checkOperands.
  rewrite (checkPrecision_same a b Hp). cbn [bind]. rewrite Hc.
  repeat split.
Qed.

Lemma X6_two_zeros_rejected_witness :
  Add bn_zero bn_zero = Err UndefinedOperationError /\
  Subtract bn_zero bn_zero = Err UndefinedOperationError /\
  Multiply bn_zero bn_zero = Err UndefinedOperationError /\
  Divide bn_zero bn_zero = Err UndefinedOperationError /\
  Modulo bn_zero bn_zero = Err UndefinedOperationError.
Proof.
  apply (X6_two_zeros_rejected bn_zero bn_zero); reflexivity.
Defined.

(** ** How Add, Subtract and Multiply compose *)

(** What a successful Add tells about its operands and its result. *)
Lemma Add_returns (a b r : BigNumber) :
  Add a b = Ok r ->
  exists pa na pb nb,
    positive a = Some pa /\ negative a = Some na /\
    positive b = Some pb /\ negative b = Some nb /\
    precision a = precision b /\
    r = mkBigNumber (Some (pa + pb)) (Some (na + nb)) (precision a)
          (rounding a) false false
          (Some (stored (rounding a) (scaleForPrecision a)
                        (pa + pb - (na + nb)))).
Proof.
  unfold Add, checkOperands, checkPrecision.
  destruct (N.eqb_spec (precision a) (precision b)) as [Hp|];
    [|discriminate].
  cbn [negb bind].
  destruct (checkSpecialCases a b); [|discriminate..].
  cbn [bind].
  destruct (positive a) as [pa|]; [|discriminate].
  destruct (negative a) as [na|]; [|discriminate].
  destruct (positive b) as [pb|]; [|discriminate].
  destruct (negative b) as [nb|]; [|discriminate].
  cbn [Go.Set_ Go.Add Go.lift2 bind].
  rewrite applyRounding_stored. cbn [bind].
  intros [= <-]. exists pa, na, pb, nb. auto 10.
Qed.

Lemma scaleForPrecision_same (a b : BigNumber) :
  precision a = precision b -> scaleForPrecision a = scaleForPrecision b.
Proof. intros H. unfold scaleForPrecision. rewrite H. reflexivity. Qed.

(** X7: Add is commutative on operands as the constructor builds them,
    of one precision and one rounding mode: both orders give the same
    number, or both fail. *)
Theorem X7_Add_commutes (a b : BigNumber) (pa na pb nb : Z) :
  constructed a pa na -> constructed b pb nb ->
  precision a = precision b -> rounding a = rounding b ->
  Add a b = Add b a.
Proof.
  intros Ca Cb Hp Hr.
  destruct ((pa - na =? 0) && (pb - nb =? 0)) eqn:Hz.
  - unfold Add.
    rewrite (checkOperands_constructed a b pa na pb nb Ca Cb Hp), Hz.
    rewrite (checkOperands_constructed b a pb nb pa na Cb Ca (eq_sym Hp)).
    rewrite andb_comm, Hz. reflexivity.
  - rewrite (Add_stored a b pa na pb nb Ca Cb Hp Hz).
    rewrite andb_comm in Hz.
    rewrite (Add_stored b a pb nb pa na Cb Ca (eq_sym Hp) Hz).
    rewrite (scaleForPrecision_same a b Hp), Hp, Hr.
    replace (pb + pa) with (pa + pb) by lia.
    replace (nb + na) with (na + nb) by lia.
    replace (pb - nb + (pa - na)) with (pa - na + (pb - nb)) by lia.
    reflexivity.
Qed.

Lemma X7_Add_commutes_witness :
  Add bn_123_45 bn_67_89 = Add bn_67_89 bn_123_45.
Proof.
  apply (X7_Add_commutes bn_123_45 bn_67_89 123 45 67 89);
    repeat split.
Defined.

(** X8: whenever both groupings of a three-term sum return, they return
    the same number: Add adds the halves of its operands, and rounds the
    value only from the halves of the result. *)
Theorem X8_Add_associates (a b c ab bc l r : BigNumber) :
  Add a b = Ok ab -> Add ab c = Ok l ->
  Add b c = Ok bc -> Add a bc = Ok r ->
  l = r.
Proof.
  intros Hab Hl Hbc Hr.
  destruct (Add_returns a b ab Hab)
    as (pa & na & pb & nb & Pa & Na & Pb & Nb & Hp1 & ->).
  destruct (Add_returns _ c l Hl)
    as (pab & nab & pc & nc & Pab & Nab & Pc & Nc & Hp2 & ->).
  destruct (Add_returns b c bc Hbc)
    as (pb' & nb' & pc' & nc' & Pb' & Nb' & Pc' & Nc' & Hp3 & ->).
  destruct (Add_returns a _ r Hr)
    as (pa' & na' & pbc & nbc & Pa' & Na' & Pbc & Nbc & Hp4 & ->).
  cbn [positive negative precision rounding] in *.
  rewrite Pa in Pa'. rewrite Na in Na'. rewrite Pb in Pb'.
  rewrite Nb in Nb'. rewrite Pc in Pc'. rewrite Nc in Nc'.
  injection Pa' as <-. injection Na' as <-. injection Pb' as <-.
  injection Nb' as <-. injection Pc' as <-. injection Nc' as <-.
  injection Pab as <-. injection Nab as <-.
  injection Pbc as <-. injection Nbc as <-.
  unfold scaleForPrecision. cbn [precision].
  replace (pa + (pb + pc)) with (pa + pb + pc) by lia.
  replace (na + (nb + nc)) with (na + nb + nc) by lia.
  reflexivity.
Qed.

Lemma X8_Add_associates_witness :
  exists ab bc l r,
    Add bn_123_45 bn_67_89 = Ok ab /\ Add ab bn_123_45 = Ok l /\
    Add bn_67_89 bn_123_45 = Ok bc /\ Add bn_123_45 bc = Ok r /\
    l = r.
Proof.
  do 4 eexists.
  assert (H1 : Add bn_123_45 bn_67_89 = Ok _) by (vm_compute; reflexivity).
  assert (H3 : Add bn_67_89 bn_123_45 = Ok _) by (vm_compute; reflexivity).
  split; [exact H1|].
  assert (H2 : Add
    (mkBigNumber (Some 190) (Some 134) 2 RoundToNearest false false (Some 1))
    bn_123_45 = Ok _) by (vm_compute; reflexivity).
  split; [exact H2|]. split; [exact H3|].
  assert (H4 : Add bn_123_45
    (mkBigNumber (Some 190) (Some 134) 2 RoundToNearest false false (Some 0))
    = Ok _) by (vm_compute; reflexivity).
  split; [exact H4|].
  exact (X8_Add_associates _ _ _ _ _ _ _ H1 H2 H3 H4).
Defined.

(** X9: under RoundUp and RoundDown, subtracting the second operand from
    a sum gives the first operand back, for operands as the constructor
    builds them, of one precision and not both zero. *)
Theorem X9_Subtract_undoes_Add (a b : BigNumber) (pa na pb nb : Z) :
  constructed a pa na -> constructed b pb nb ->
  precision a = precision b ->
  rounding a = RoundUp \/ rounding a = RoundDown ->
  (pa - na =? 0) && (pb - nb =? 0) = false ->
  exists ab, Add a b = Ok ab /\ Subtract ab b = Ok a.
Proof.
  intros Ca Cb Hp Hm Hz.
  rewrite (Add_stored a b pa na pb nb Ca Cb Hp Hz).
  eexists. split; [reflexivity|].
  assert (Hs : forall s, stored (rounding a) (scaleForPrecision a) s = s).
  { intros s. destruct Hm as [-> | ->]; reflexivity. }
  rewrite Hs.
  assert (Hz' : ((pa + pb) - (na + nb) =? 0) && (pb - nb =? 0) = false).
  { apply andb_false_iff. apply andb_false_iff in Hz.
    destruct Hz as [H|H]; [|right; exact H].
    destruct (pb - nb =? 0) eqn:E; [left|right; reflexivity].
    apply Z.eqb_eq in E. apply Z.eqb_neq in H. apply Z.eqb_neq. lia. }
  rewrite (Subtract_stored _ b (pa + pb) (na + nb) pb nb);
    [ | repeat split; cbn; f_equal; lia | exact Cb | exact Hp | exact Hz' ].
  cbn [precision rounding]. rewrite Hs.
  destruct a as [p n pr m i nn v].
  destruct Ca as (Ia & Na & Pa & Ng & Va). cbn in *. subst.
  do 2 f_equal; f_equal; lia.
Qed.

Lemma X9_Subtract_undoes_Add_witness :
  exists ab,
    Add (whole 7) (whole 5) = Ok ab /\ Subtract ab (whole 5) = Ok (whole 7).
Proof.
  apply (X9_Subtract_undoes_Add (whole 7) (whole 5) 7 0 5 0).
  - repeat split.
  - repeat split.
  - reflexivity.
  - right. reflexivity.
  - reflexivity.
Defined.

(** X10: Multiply multiplies the two positive halves and the two negative
    halves separately: for operands as the constructor builds them, of
    one precision p and not both zero, the result has the halves
    pa * pb and na * nb, precision p + p (modulo 2^64), and as value
    their difference after the rounding step of the left operand's mode.
    Under RoundUp and RoundDown, which leave that difference as it is,
    the value returned is the product of the operands' values plus
    pa * nb + na * pb - 2 * na * nb. *)
Theorem X10_Multiply_halves (a b : BigNumber) (pa na pb nb : Z) :
  constructed a pa na -> constructed b pb nb ->
  precision a = precision b ->
  (pa - na =? 0) && (pb - nb =? 0) = false ->
  Multiply a b =
  Ok (mkBigNumber (Some (pa * pb)) (Some (na * nb))
        (Go.uint_add (precision a) (precision a)) (rounding a) false false
        (Some (stored (rounding a) (scaleForPrecision a)
                      (pa * pb - na * nb)))) /\
  (rounding a = RoundUp \/ rounding a = RoundDown ->
   exists r,
     Multiply a b = Ok r /\
     value r = Some ((pa - na) * (pb - nb) +
                     (pa * nb + na * pb - 2 * na * nb))).
Proof.
  intros Ca Cb Hp Hz.
  assert (HM : Multiply a b =
    Ok (mkBigNumber (Some (pa * pb)) (Some (na * nb))
          (Go.uint_add (precision a) (precision a)) (rounding a) false
          false
          (Some (stored (rounding a) (scaleForPrecision a)
                        (pa * pb - na * nb))))).
  { unfold Multiply.
    rewrite (checkOperands_constructed a b pa na pb nb Ca Cb Hp), Hz.
    destruct Ca as (_ & _ & Pa & Na & _), Cb as (_ & _ & Pb & Nb & _).
    rewrite Pa, Na, Pb, Nb. cbn [bind Go.Set_ Go.Mul Go.lift2].
    rewrite applyRounding_stored. cbn [bind]. rewrite <- Hp. reflexivity. }
  split; [exact HM|].
  intros Hm. eexists. split; [exact HM|]. cbn [value].
  replace (stored (rounding a) (scaleForPrecision a) (pa * pb - na * nb))
    with (pa * pb - na * nb)
    by (destruct Hm as [-> | ->]; reflexivity).
  f_equal. ring.
Qed.

Lemma X10_Multiply_halves_witness :
  Multiply (mkBigNumber (Some 3) (Some 1) 1 RoundDown false false (Some 2))
           (mkBigNumber (Some 5) (Some 2) 1 RoundDown false false (Some 3))
  = Ok (mkBigNumber (Some (3 * 5)) (Some (1 * 2)) (Go.uint_add 1 1)
          RoundDown false false
          (Some (stored RoundDown
                   (scaleForPrecision
                      (mkBigNumber (Some 3) (Some 1) 1 RoundDown false
                                   false (Some 2)))
                   (3 * 5 - 1 * 2)))) /\
  (RoundDown = RoundUp \/ RoundDown = RoundDown ->
   exists r,
     Multiply
       (mkBigNumber (Some 3) (Some 1) 1 RoundDown false false (Some 2))
       (mkBigNumber (Some 5) (Some 2) 1 RoundDown false false (Some 3))
     = Ok r /\
     value r = Some ((3 - 1) * (5 - 2) + (3 * 2 + 1 * 5 - 2 * 1 * 2))).
Proof.
  apply (X10_Multiply_halves
           (mkBigNumber (Some 3) (Some 1) 1 RoundDown false false (Some 2))
           (mkBigNumber (Some 5) (Some 2) 1 RoundDown false false (Some 3))
           3 1 5 2);
    repeat split.
Defined.

(** ** Exponentiate *)

Lemma Cmp_some (x y : Z) :
  Go.Cmp (Some x) (Some y) =
  Ok (match x ?= y with Lt => -1 | Eq => 0 | Gt => 1 end).
Proof. reflexivity. Qed.

Lemma Cmp_negative (x y : Z) :
  (match x ?= y with Lt => -1 | Eq => 0 | Gt => 1 end <? 0) = (x <? y).
Proof. unfold Z.ltb at 2. destruct (x ?= y); reflexivity. Qed.

(** The overflow test and the swap, on allocated halves. *)
Lemma settle_some (bn : BigNumber) (p n pos neg : Z) (t : N) :
  positive bn = Some pos -> negative bn = Some neg ->
  settle bn p n t =
  if (p <? pos) || (n <? neg) then Err OverflowError
  else Ok (mkBigNumber (Some (Z.max p n)) (Some (Z.min p n)) t
             (rounding bn) false false (Some (Z.abs (p - n)))).
Proof.
  intros Hp Hn. unfold settle. rewrite Hp, Hn, !Cmp_some.
  cbn [bind]. rewrite Cmp_negative.
  destruct (p <? pos) eqn:E1; cbn [bind orb]; [reflexivity|].
  rewrite Cmp_negative. cbn [bind orb].
  destruct (n <? neg); [reflexivity|].
  destruct (p <? n) eqn:E; [apply Z.ltb_lt in E|apply Z.ltb_ge in E];
    do 2 f_equal; f_equal; lia.
Qed.

Lemma pow_ge_base (n e : Z) : 0 <= n -> 1 <= e -> n <= n ^ e.
Proof.
  intros Hn He. replace e with (Z.succ (e - 1)) by lia.
  rewrite Z.pow_succ_r by lia.
  destruct (Z.eq_dec n 0) as [-> | Hz]; [lia|].
  assert (0 < n ^ (e - 1)) by (apply Z.pow_pos_nonneg; lia). nia.
Qed.



(** X12: for a whole number as the constructor builds it (one half holds
    the digits n, the other is zero) and an exponent of at least 1,
    Exponentiate returns n^e with no overflow error, also when the
    number is negative: the sign is lost. *)
Theorem X12_Exponentiate_whole (bn : BigNumber) (n e : Z) :
  (positive bn = Some n /\ negative bn = Some 0) \/
  (positive bn = Some 0 /\ negative bn = Some n) ->
  0 <= n -> 1 <= e ->
  Exponentiate bn e =
  Ok (mkBigNumber (Some (n ^ e)) (Some 0) (precision bn) (rounding bn)
                  false false (Some (n ^ e))).
Proof.
  intros H Hn He. pose proof (pow_ge_base n e Hn He) as Hg.
  assert (H0 : 0 ^ e = 0) by (apply Z.pow_0_l; lia).
  assert (Hl : (e <=? 0) = false) by (apply Z.leb_gt; lia).
  unfold Exponentiate, Go.Exp.
  destruct H as [[Hp Hm] | [Hp Hm]]; rewrite Hp, Hm, Hl; cbn [bind];
    rewrite (settle_some bn _ _ _ _ _ Hp Hm), H0.
  - replace (n ^ e <? n) with false by (symmetry; apply Z.ltb_ge; lia).
    cbn [orb]. rewrite Z.ltb_irrefl.
    do 2 f_equal; f_equal; lia.
  - rewrite Z.ltb_irrefl.
    replace (n ^ e <? n) with false by (symmetry; apply Z.ltb_ge; lia).
    cbn [orb]. do 2 f_equal; f_equal; lia.
Qed.

Lemma X12_Exponentiate_whole_witness :
  Exponentiate (mkBigNumber (Some 0) (Some 2) 0 RoundDown false false
                            (Some (-2))) 3 =
  Ok (mkBigNumber (Some (2 ^ 3)) (Some 0) 0 RoundDown false false
                  (Some (2 ^ 3))).
Proof.
  apply (X12_Exponentiate_whole
           (mkBigNumber (Some 0) (Some 2) 0 RoundDown false false
                        (Some (-2))) 2 3).
  - right. split; reflexivity.
  - discriminate.
  - discriminate.
Defined.

(** X13: with an exponent of zero or less both halves become 1, so
    Exponentiate reports an overflow when a half of the receiver exceeds
    1 and returns the value 0 otherwise; it never returns 1. *)
Theorem X13_Exponentiate_nonpositive_exponent (bn : BigNumber)
        (pos neg e : Z) :
  positive bn = Some pos -> negative bn = Some neg -> e <= 0 ->
  Exponentiate bn e =
  if (1 <? pos) || (1 <? neg) then Err OverflowError
  else Ok (mkBigNumber (Some 1) (Some 1) (precision bn) (rounding bn)
                       false false (Some 0)).
Proof.
  intros Hp Hn He.
  assert (Hl : (e <=? 0) = true) by (apply Z.leb_le; exact He).
  unfold Exponentiate, Go.Exp. rewrite Hp, Hn, Hl. cbn [bind].
  rewrite (settle_some bn _ _ pos neg _ Hp Hn). reflexivity.
Qed.

Lemma X13_Exponentiate_nonpositive_exponent_witness :
  Exponentiate (mkBigNumber (Some 2) (Some 50) 2 RoundToNearest false
                            false (Some (-48))) 0 =
  Err OverflowError.
Proof.
  exact (X13_Exponentiate_nonpositive_exponent
           (mkBigNumber (Some 2) (Some 50) 2 RoundToNearest false false
                        (Some (-48))) 2 50 0 eq_refl eq_refl
           ltac:(discriminate)).
Defined.

(** ** AbsoluteValue, and the numbers without halves *)

Lemma AbsoluteValue_value (bn : BigNumber) (v : Z) :
  value bn = Some v ->
  AbsoluteValue bn =
  Ok (mkBigNumber None None (precision bn) (rounding bn) false false
                  (Some (Z.abs v))).
Proof.
  intros Hv. unfold AbsoluteValue. rewrite Hv. cbn [Go.Sign Go.Set_ bind].
  do 2 f_equal. f_equal. destruct v; reflexivity.
Qed.

(** X14: on a number whose value is allocated AbsoluteValue returns the
    absolute value at the same precision and mode, and applying it again
    changes nothing. *)
Theorem X14_AbsoluteValue_idempotent (bn : BigNumber) (v : Z) :
  value bn = Some v ->
  exists r,
    AbsoluteValue bn = Ok r /\ value r = Some (Z.abs v) /\
    precision r = precision bn /\ rounding r = rounding bn /\
    AbsoluteValue r = Ok r.
Proof.
  intros Hv. rewrite (AbsoluteValue_value bn v Hv).
  eexists. split; [reflexivity|]. cbn [value precision rounding].
  repeat split.
  match goal with
  | |- AbsoluteValue ?r = _ =>
      rewrite (AbsoluteValue_value r (Z.abs v) eq_refl)
  end.
  cbn [precision rounding]. rewrite Z.abs_idemp. reflexivity.
Qed.

Lemma X14_AbsoluteValue_idempotent_witness :
  exists r,
    AbsoluteValue bn_67_89 = Ok r /\ value r = Some (Z.abs (-22)) /\
    precision r = precision bn_67_89 /\ rounding r = rounding bn_67_89 /\
    AbsoluteValue r = Ok r.
Proof.
  exact (X14_AbsoluteValue_idempotent bn_67_89 (-22) eq_refl).
Defined.

Lemma Round_halves (bn r : BigNumber) (t : N) :
  t <> precision bn -> Round bn t = Ok r -> positive r = None.
Proof.
  intros Ht. unfold Round.
  destruct (N.eqb_spec t (precision bn)); [contradiction|].
  destruct (value bn) as [v|]; [|discriminate].
  cbn [Go.Set_ bind]. rewrite applyRounding_stored. cbn [bind].
  intros [= <-]. reflexivity.
Qed.

Lemma AbsoluteValue_halves (bn r : BigNumber) :
  AbsoluteValue bn = Ok r -> positive r = None.
Proof.
  unfold AbsoluteValue. destruct (value bn); [|discriminate].
  cbn [Go.Sign Go.Set_ bind]. intros [= <-]. reflexivity.
Qed.

Lemma no_positive_half (r other : BigNumber) (e : Z) :
  positive r = None ->
  returns (Add r other) = false /\ returns (Add other r) = false /\
  returns (Subtract r other) = false /\
  returns (Subtract other r) = false /\
  returns (Multiply r other) = false /\
  returns (Multiply other r) = false /\
  returns (Exponentiate r e) = false.
Proof.
  intros H. unfold Add, Subtract, Multiply, Exponentiate. rewrite H.
  repeat split;
    try (destruct (checkOperands r other); reflexivity);
    try reflexivity;
    destruct (checkOperands other r); try reflexivity; cbn [bind];
    destruct (positive other); try reflexivity; cbn [Go.Set_ bind];
    destruct (negative other); reflexivity.
Qed.

(** X15: what Round (to another precision) and AbsoluteValue return
    cannot be computed with: their results have no halves, so Add,
    Subtract and Multiply with such a result on either side, and
    Exponentiate of it, never return a value (they fail a check or
    panic on the nil half). *)
Theorem X15_results_without_halves (bn r other : BigNumber) (t : N)
        (e : Z) :
  (t <> precision bn /\ Round bn t = Ok r) \/ AbsoluteValue bn = Ok r ->
  returns (Add r other) = false /\ returns (Add other r) = false /\
  returns (Subtract r other) = false /\
  returns (Subtract other r) = false /\
  returns (Multiply r other) = false /\
  returns (Multiply other r) = false /\
  returns (Exponentiate r e) = false.
Proof.
  intros [[Ht Hr] | Ha]; apply no_positive_half.
  - exact (Round_halves bn r t Ht Hr).
  - exact (AbsoluteValue_halves bn r Ha).
Qed.

Lemma X15_results_without_halves_witness :
  exists r,
    AbsoluteValue bn_123_45 = Ok r /\
    returns (Add r bn_67_89) = false /\ returns (Add bn_67_89 r) = false /\
    returns (Subtract r bn_67_89) = false /\
    returns (Subtract bn_67_89 r) = false /\
    returns (Multiply r bn_67_89) = false /\
    returns (Multiply bn_67_89 r) = false /\
    returns (Exponentiate r 2) = false.
Proof.
  eexists. split; [vm_compute; reflexivity|].
  apply (X15_results_without_halves bn_123_45 _ bn_67_89 0 2).
  right. vm_compute. reflexivity.
Defined.

(** ** Round and the rounding step *)

(** X16: in the tested draft the digits Round stores do not depend on
    the target precision: rounding one number to two different targets,
    both other than its own precision, gives the same value under two
    precisions. *)
Theorem X16_Round_ignores_target (bn : BigNumber) (t1 t2 : N) (v : Z) :
  value bn = Some v -> t1 <> precision bn -> t2 <> precision bn ->
  exists r1 r2,
    Round bn t1 = Ok r1 /\ Round bn t2 = Ok r2 /\
    precision r1 = t1 /\ precision r2 = t2 /\ value r1 = value r2.
Proof.
  intros Hv H1 H2.
  rewrite (Round_stored bn t1 v H1 Hv), (Round_stored bn t2 v H2 Hv).
  do 2 eexists. repeat split.
Qed.

Lemma X16_Round_ignores_target_witness :
  exists r1 r2,
    Round bn_123_45 0 = Ok r1 /\ Round bn_123_45 7 = Ok r2 /\
    precision r1 = 0%N /\ precision r2 = 7%N /\ value r1 = value r2.
Proof.
  apply (X16_Round_ignores_target bn_123_45 0 7 78);
    [reflexivity|discriminate|discriminate].
Defined.



(** X18: under RoundToEven the rounding step of the tested draft returns
    a single decimal digit, and never 5: the tie test overwrites the
    quotient with its last digit, and a last digit 5 with 0. *)
Theorem X18_RoundToEven_one_digit (bn : BigNumber) (v : Z) :
  rounding bn = RoundToEven ->
  exists d,
    applyRounding bn (Some v) = Ok (Some d) /\ 0 <= d <= 9 /\ d <> 5.
Proof.
  intros Hm. rewrite applyRounding_stored, Hm. unfold stored.
  set (q := (v + scaleForPrecision bn / 2) / scaleForPrecision bn).
  pose proof (Z.mod_pos_bound q 10 ltac:(lia)) as Hb.
  eexists. split; [reflexivity|].
  destruct (q mod 10 =? 5) eqn:E; [lia|].
  apply Z.eqb_neq in E. lia.
Qed.

Lemma X18_RoundToEven_one_digit_witness :
  exists d,
    applyRounding (literal 2 RoundToEven) (Some 12345) = Ok (Some d) /\
    0 <= d <= 9 /\ d <> 5.
Proof.
  exact (X18_RoundToEven_one_digit (literal 2 RoundToEven) 12345 eq_refl).
Defined.

(** X19: under RoundToNearest the rounding step divides by the
    receiver's scale s = 10^precision (precision below 2^63) and returns
    the quotient q nearest to value / s, a tie going to the larger
    quotient (toward plus infinity, also for negative values):
    q*s - s/2 <= value < q*s + (s - s/2). *)
Theorem X19_RoundToNearest_nearest (bn : BigNumber) (v : Z) :
  rounding bn = RoundToNearest -> Z.of_N (precision bn) < 2 ^ 63 ->
  let s := 10 ^ Z.of_N (precision bn) in
  exists q,
    applyRounding bn (Some v) = Ok (Some q) /\
    q * s - s / 2 <= v < q * s + (s - s / 2).
Proof.
  intros Hm Hp s. rewrite applyRounding_stored, Hm. unfold stored.
  rewrite (scaleForPrecision_pow bn Hp). fold s.
  assert (Hs : 0 < s) by (apply Z.pow_pos_nonneg; lia).
  eexists. split; [reflexivity|].
  pose proof (Z.div_mod (v + s / 2) s ltac:(lia)) as Hd.
  pose proof (Z.mod_pos_bound (v + s / 2) s Hs) as Hb.
  nia.
Qed.

Lemma X19_RoundToNearest_nearest_witness :
  exists q,
    applyRounding (literal 2 RoundToNearest) (Some (-150)) = Ok (Some q) /\
    q * 10 ^ 2 - 10 ^ 2 / 2 <= -150 < q * 10 ^ 2 + (10 ^ 2 - 10 ^ 2 / 2).
Proof.
  apply (X19_RoundToNearest_nearest (literal 2 RoundToNearest) (-150));
    reflexivity.
Defined.

(** ** Comparison of finite numbers *)

(** X20: on two numbers with allocated values that are not both Infinite
    and not both NotANumber, the five comparisons compare the two value
    integers and nothing else: the precisions play no part, so 123.45 at
    precision 2 and 123.450 at precision 3 are told apart only through
    their digits. *)
Theorem X20_comparisons_on_values (a b : BigNumber) (x y : Z) :
  value a = Some x -> value b = Some y ->
  (isInf a && isInf b) || (isNan a && isNan b) = false ->
  Equal a b = Ok (x =? y) /\ LessThan a b = Ok (x <? y) /\
  GreaterThan a b = Ok (y <? x) /\ LessOrEqual a b = Ok (x <=? y) /\
  GreaterOrEqual a b = Ok (y <=? x).
Proof.
  intros Ha Hb Hf.
  unfold Equal, LessThan, GreaterThan, LessOrEqual, GreaterOrEqual,
    compare_with.
  rewrite Hf, Ha, Hb, Cmp_some. cbn [bind].
  rewrite (Z.eqb_compare x y), (Z.ltb_compare x y), (Z.leb_compare x y).
  rewrite (Z.ltb_compare y x), (Z.leb_compare y x), (Z.compare_antisym x y).
  destruct (x ?= y); repeat split.
Qed.

Lemma X20_comparisons_on_values_witness :
  Equal bn_123_45 (whole 78) = Ok (78 =? 78) /\
  LessThan bn_123_45 (whole 78) = Ok (78 <? 78) /\
  GreaterThan bn_123_45 (whole 78) = Ok (78 <? 78) /\
  LessOrEqual bn_123_45 (whole 78) = Ok (78 <=? 78) /\
  GreaterOrEqual bn_123_45 (whole 78) = Ok (78 <=? 78).
Proof.
  apply (X20_comparisons_on_values bn_123_45 (whole 78) 78 78);
    reflexivity.
Defined.


(** ** Rendering a number and reading it back *)

Lemma all_digits_app (s1 s2 : string) :
  all_digits (s1 ++ s2) = all_digits s1 && all_digits s2.
Proof.
  induction s1 as [|c s1 IH]; simpl; [reflexivity|].
  destruct (Go.digit c); [exact IH|reflexivity].
Qed.

Lemma substring_split (k : nat) (s : string) :
  (k <= String.length s)%nat ->
  s = (substring 0 k s ++ substring k (String.length s - k) s)%string.
Proof.
  revert s. induction k as [|k IH]; intros s Hk.
  - rewrite Nat.sub_0_r. destruct s; simpl; [reflexivity|].
    f_equal. clear. induction s; simpl; congruence.
  - destruct s as [|c s]; simpl in *; [lia|].
    f_equal. apply IH. lia.
Qed.

Lemma length_app (s1 s2 : string) :
  String.length (s1 ++ s2) = (String.length s1 + String.length s2)%nat.
Proof. induction s1; simpl; congruence. Qed.

Lemma length_substring_rest (k : nat) (s : string) :
  (k <= String.length s)%nat ->
  String.length (substring k (String.length s - k) s) =
  (String.length s - k)%nat.
Proof.
  intros Hk.
  pose proof (f_equal String.length (substring_split k s Hk)) as H.
  rewrite length_app, length_substring_0 in H. lia.
Qed.

Lemma digits_value_from_linear (s : string) :
  forall acc,
    digits_value_from acc s =
    acc * 10 ^ Go.len s + digits_value s.
Proof.
  unfold digits_value, Go.len.
  induction s as [|c s IH]; intros acc;
    cbn [digits_value_from String.length].
  - simpl. lia.
  - rewrite IH, (IH (10 * 0 + _)).
    rewrite Nat2Z.inj_succ, Z.pow_succ_r by lia. ring.
Qed.

Lemma digits_value_app (s1 s2 : string) :
  digits_value (s1 ++ s2) =
  digits_value s1 * 10 ^ Go.len s2 + digits_value s2.
Proof.
  rewrite <- digits_value_from_linear. unfold digits_value.
  generalize 0. induction s1 as [|c s1 IH]; intros acc; simpl;
    [reflexivity|apply IH].
Qed.

Lemma digits_value_from_nonneg (s : string) :
  forall acc,
    0 <= acc -> all_digits s = true -> 0 <= digits_value_from acc s.
Proof.
  induction s as [|c s IH]; intros acc Ha Hd;
    cbn [digits_value_from all_digits] in *; [exact Ha|].
  destruct (Go.digit c) as [d|] eqn:E; [|discriminate].
  apply IH; [|exact Hd].
  unfold Go.digit in E.
  destruct (_ && _) eqn:B; [|discriminate].
  apply andb_true_iff in B. destruct B as [B _]. apply Z.leb_le in B. lia.
Qed.

Lemma digits_value_nonneg (s : string) :
  all_digits s = true -> 0 <= digits_value s.
Proof. apply digits_value_from_nonneg. lia. Qed.

Lemma Repeat0_facts (k : nat) :
  all_digits (Go.Repeat0 k) = true /\ digits_value (Go.Repeat0 k) = 0 /\
  String.length (Go.Repeat0 k) = k.
Proof.
  unfold digits_value. induction k as [|k (H1 & H2 & H3)]; simpl; auto.
Qed.

(** The decimal text of a number that is not negative. *)
Lemma Int_String_nonneg (a : Z) :
  0 <= a ->
  exists c s,
    Go.Int_String a = String c s /\ all_digits (String c s) = true /\
    digits_value (String c s) = a.
Proof.
  intros Ha. destruct (Int_String_shape a) as (c & s & Hd & Hv & Hs).
  exists c, s. replace (a <? 0) with false in Hs
    by (symmetry; apply Z.ltb_ge; exact Ha).
  unfold grammar_text in Hs. simpl in Hs. rewrite append_empty in Hs.
  rewrite Z.abs_eq in Hv by exact Ha. auto.
Qed.

(** The rendering of a finite number is a text of the grammar, and the
    integer digits minus the scaled fraction of that text make up the
    number's magnitude only when the number is zero. *)
Lemma rendering_parts (bn : BigNumber) (v : Z) :
  isInf bn = false -> isNan bn = false -> value bn = Some v ->
  Z.of_N (precision bn) < 2 ^ 63 ->
  Go.len (Go.Int_String (Z.abs v)) < 2 ^ 63 ->
  exists c I' F,
    all_digits (String c I') = true /\
    match F with Some f => all_digits f = true | None => True end /\
    BigNumber_String bn = Ok (grammar_text (v <? 0) (String c I') F) /\
    (digits_value (String c I') - code_fraction F (precision bn) = Z.abs v
     <-> v = 0).
Proof.
  intros Hi Hn Hv Hp Hl.
  destruct (Int_String_nonneg (Z.abs v) (Z.abs_nonneg v))
    as (c & s & Hs & Hd & Ha).
  unfold BigNumber_String. rewrite Hi, Hn, Hv. cbn [Go.Set_ bind].
  replace (Z.sgn v <? 0) with (v <? 0) by (destruct v; reflexivity).
  rewrite Hs in *. set (str := String c s) in *.
  set (L := Go.len str) in *.
  assert (HL : 1 <= L).
  { unfold L, Go.len, str. simpl String.length. lia. }
  pose proof (Z.abs_nonneg v) as Hv0.
  destruct (0 <? precision bn)%N eqn:Ep.
  - apply N.ltb_lt in Ep.
    set (p := Z.of_N (precision bn)) in *.
    assert (Hp1 : 1 <= p) by (unfold p; lia).
    rewrite (int64_small p) by lia.
    rewrite (int64_small (L - p)) by lia.
    destruct (L - p <? 0) eqn:E1; [apply Z.ltb_lt in E1|apply Z.ltb_ge in E1].
    + (* fewer digits than the precision: zeros before the point *)
      rewrite (int64_small (- (L - p))) by lia.
      replace (- (L - p) <? 0) with false
        by (symmetry; apply Z.ltb_ge; lia).
      destruct (Z.to_nat (- (L - p))) as [|k] eqn:Ek; [lia|].
      destruct (Repeat0_facts k) as (R1 & R2 & R3).
      exists "0"%char, (Go.Repeat0 k), (Some str).
      split; [exact R1|]. split; [exact Hd|]. split; [reflexivity|].
      unfold code_fraction. fold L. fold p.
      rewrite Z.min_l by lia. rewrite (int64_small (p - L)) by lia.
      unfold Go.Exp10.
      destruct (p - L <=? 0) eqn:E2; [apply Z.leb_le in E2; lia|].
      assert (H10 : 1 < 10 ^ (p - L)) by (apply Z.pow_gt_1; lia).
      change (digits_value (String "0" (Go.Repeat0 k)))
        with (digits_value (Go.Repeat0 k)).
      rewrite R2, Ha. split; [nia|intros ->; reflexivity].
    + destruct (L - p =? 0) eqn:E2;
        [apply Z.eqb_eq in E2|apply Z.eqb_neq in E2].
      * (* as many digits as the precision *)
        exists "0"%char, EmptyString, (Some str).
        split; [reflexivity|]. split; [exact Hd|]. split; [reflexivity|].
        unfold code_fraction. fold L. fold p.
        rewrite Z.min_l by lia. replace (p - L) with 0 by lia.
        change (Go.Exp10 (Go.int64 0)) with 1.
        change (digits_value "0") with 0. rewrite Ha.
        split; [lia|intros ->; reflexivity].
      * (* more digits than the precision: the text is cut in two *)
        replace (L <? L - p) with false by (symmetry; apply Z.ltb_ge; lia).
        set (k := Z.to_nat (L - p)).
        assert (Hk : (1 <= k <= String.length str)%nat).
        { unfold k, L, Go.len in *. lia. }
        pose proof (substring_split k str (proj2 Hk)) as Hsplit.
        pose proof (length_substring_rest k str (proj2 Hk)) as Hrest.
        pose proof (length_substring_0 k str) as Hfront.
        set (front := substring 0 k str) in *.
        set (back := substring k (String.length str - k) str) in *.
        assert (Hdd : all_digits front = true /\ all_digits back = true).
        { apply andb_true_iff. rewrite <- all_digits_app, <- Hsplit.
          exact Hd. }
        destruct Hdd as [Hdf Hdb].
        destruct front as [|cf fs] eqn:Ef.
        { simpl in Hfront. lia. }
        exists cf, fs, (Some back).
        split; [exact Hdf|]. split; [exact Hdb|]. split; [reflexivity|].
        unfold code_fraction.
        assert (Hlb : Go.len back = p).
        { unfold Go.len. rewrite Hrest. unfold k, L, Go.len in *. lia. }
        rewrite Hlb, Z.min_id, Z.sub_diag.
        change (Go.Exp10 (Go.int64 0)) with 1.
        pose proof (digits_value_app (String cf fs) back) as Happ.
        rewrite <- Hsplit, Hlb, Ha in Happ.
        pose proof (digits_value_nonneg _ Hdf) as H1.
        pose proof (digits_value_nonneg _ Hdb) as H2.
        assert (H10 : 1 < 10 ^ p) by (apply Z.pow_gt_1; lia).
        split; [nia|intros ->; simpl in Happ; nia].
  - (* precision 0: the digits are replaced by "0" *)
    exists "0"%char, EmptyString, None.
    split; [reflexivity|]. split; [exact I|]. split; [reflexivity|].
    unfold code_fraction. change (digits_value "0") with 0.
    split; [lia|intros ->; reflexivity].
Qed.

Lemma Cmp_equal (x y : Z) :
  (match x ?= y with Lt => -1 | Eq => 0 | Gt => 1 end =? 0) = (x =? y).
Proof. rewrite (Z.eqb_compare x y). destruct (x ?= y); reflexivity. Qed.

(** X22: the rendering of a finite number (precision below 2^63, text
    shorter than 2^63 bytes) is always accepted by the constructor, and
    the number read back at the same precision and mode is equal to the
    original exactly when the original is zero. *)
Theorem X22_roundtrip_only_zero (bn : BigNumber) (v : Z) :
  isInf bn = false -> isNan bn = false -> value bn = Some v ->
  Z.of_N (precision bn) < 2 ^ 63 ->
  Go.len (Go.Int_String (Z.abs v)) < 2 ^ 63 ->
  exists s y,
    BigNumber_String bn = Ok s /\
    NewBigNumber s (precision bn) (rounding bn) = Ok y /\
    Equal y bn = Ok (v =? 0).
Proof.
  intros Hi Hn Hv Hp Hl.
  destruct (rendering_parts bn v Hi Hn Hv Hp Hl)
    as (c & I' & F & HdI & HdF & Hs & Hz).
  do 2 eexists. split; [exact Hs|].
  split; [exact (NewBigNumber_grammar _ c I' F _ _ HdI HdF)|].
  unfold Equal, compare_with. cbn [isInf isNan value].
  rewrite Hi, Hn, Hv. cbn [andb orb]. rewrite Cmp_some. cbn [bind].
  f_equal. rewrite Cmp_equal. unfold code_parts.
  destruct (Z.eqb_spec v 0) as [E|E].
  - apply Z.eqb_eq. apply Hz in E.
    destruct (v <? 0) eqn:Es; [apply Z.ltb_lt in Es|apply Z.ltb_ge in Es];
      cbn [fst snd]; lia.
  - apply Z.eqb_neq. intros Heq. apply E. apply Hz.
    destruct (v <? 0) eqn:Es; [apply Z.ltb_lt in Es|apply Z.ltb_ge in Es];
      cbn [fst snd] in Heq; lia.
Qed.

Lemma X22_roundtrip_only_zero_witness :
  exists s y,
    BigNumber_String bn_123_45 = Ok s /\
    NewBigNumber s (precision bn_123_45) (rounding bn_123_45) = Ok y /\
    Equal y bn_123_45 = Ok (78 =? 0).
Proof.
  apply (X22_roundtrip_only_zero bn_123_45 78); reflexivity.
Defined.

(** ** What Exp and Log compute *)

(** X23: for a finite operand whose value x is zero or negative, Exp
    leaves its loop after the first pass and builds its result from
    1 + x: the series is cut after its linear term, so the "exponential"
    of -5 is made from -4. *)
Theorem X23_Exp_of_nonpositive (bn : BigNumber) (x : Z) (fuel : nat) :
  isInf bn = false -> isNan bn = false -> value bn = Some x -> x <= 0 ->
  Exp (S fuel) bn =
  Some (Ok (mkBigNumber (Some (Z.max (1 + x) 0))
                        (Some (Z.max (- (1 + x)) 0))
                        (precision bn) (rounding bn) false false
                        (Some (stored (rounding bn) (scaleForPrecision bn)
                                      (1 + x))))).
Proof.
  intros Hi Hn Hv Hx. rewrite (Exp_finite _ bn x Hi Hn Hv).
  cbn [Exp_loop]. rewrite Z.mul_1_l, Div_some by lia.
  rewrite ediv_pos, Z.div_1_r by lia.
  replace (x <? 1) with true by (symmetry; apply Z.ltb_lt; lia).
  cbn [bind]. rewrite reparse_stored. reflexivity.
Qed.

Lemma X23_Exp_of_nonpositive_witness :
  Exp 1 (mkBigNumber (Some 0) (Some 5) 0 RoundDown false false (Some (-5)))
  = Some (Ok (mkBigNumber (Some (Z.max (1 + -5) 0))
                          (Some (Z.max (- (1 + -5)) 0))
                          0 RoundDown false false
                          (Some (stored RoundDown
                                   (scaleForPrecision (whole 0))
                                   (1 + -5))))).
Proof.
  apply (X23_Exp_of_nonpositive
           (mkBigNumber (Some 0) (Some 5) 0 RoundDown false false
                        (Some (-5))) (-5) 0);
    [reflexivity|reflexivity|reflexivity|discriminate].
Defined.

(** From the second pass on, for an operand between 1 and 2^63, the sum
    of Exp's loop stays at least the operand. *)
Lemma Exp_loop_at_least (fuel : nat) :
  forall x term result i r,
    0 < x <= 2 ^ 63 -> 2 <= i < 2 ^ 63 \/ i = - 2 ^ 63 ->
    1 <= term -> x + 1 <= result -> (i <> 2 -> x + term <= result) ->
    Exp_loop fuel x term result i = Some r ->
    exists R, r = Ok R /\ x <= R.
Proof.
  induction fuel as [|fuel IH]; intros x term result i r Hx Hi Ht Hr Hs;
    cbn [Exp_loop]; [discriminate|].
  rewrite Div_some by lia.
  destruct Hi as [Hi | ->].
  - rewrite ediv_pos by lia.
    assert (Hq : 0 <= term * x / i) by (apply Z.div_pos; nia).
    destruct (term * x / i <? 1) eqn:E.
    + intros [= <-]. eexists. split; [reflexivity|lia].
    + apply Z.ltb_ge in E. apply IH; try lia.
      destruct (Z.eq_dec i (2 ^ 63 - 1)) as [-> | Hm].
      * right. apply int64_wrap.
      * left. rewrite int64_small; lia.
  - rewrite ediv_neg by lia.
    replace (- - 2 ^ 63) with (2 ^ 63) by lia.
    assert (Hq : 0 <= term * x / 2 ^ 63 <= term).
    { split; [apply Z.div_pos; nia|apply Z.div_le_upper_bound; nia]. }
    destruct (- (term * x / 2 ^ 63) <? 1) eqn:E;
      [|apply Z.ltb_ge in E; lia].
    intros [= <-]. eexists. split; [reflexivity|].
    assert (- 2 ^ 63 <> 2) by lia. specialize (Hs H). lia.
Qed.

Lemma Exp_loop_result (x : Z) :
  0 < x <= 2 ^ 63 ->
  exists R, Exp_loop enough_fuel x 1 1 1 = Some (Ok R) /\ x <= R.
Proof.
  intros Hx. destruct enough_fuel_start as [Hr Hd].
  destruct (Exp_loop_terminates _ x 1 1 1 Hr Hd) as [r Hl].
  change (S (Z.to_nat (2 ^ 64))) with enough_fuel in Hl.
  pose proof Hl as Hl'. unfold enough_fuel in Hl'.
  cbn [Exp_loop] in Hl'. rewrite Z.mul_1_l, Div_some in Hl' by lia.
  rewrite ediv_pos, Z.div_1_r in Hl' by lia.
  replace (x <? 1) with false in Hl' by (symmetry; apply Z.ltb_ge; lia).
  change (Go.int64 (1 + 1)) with 2 in Hl'.
  assert (H2 : 2 <= 2 < 2 ^ 63 \/ 2 = - 2 ^ 63) by (left; lia).
  destruct (Exp_loop_at_least (Z.to_nat (2 ^ 64)) x x (1 + x) 2 r Hx H2
              ltac:(lia) ltac:(lia) ltac:(intros; lia) Hl')
    as (R & -> & HR).
  exists R. split; [exact Hl|exact HR].
Qed.

(** X24: under RoundUp and RoundDown, Log of every finite operand with a
    value between 1 and 2^63 returns the same number, built from the
    integer 1: the loop computes a quotient of zero on its first pass and
    leaves the initial guess as it is. *)
Theorem X24_Log_is_constant (bn : BigNumber) (x : Z) :
  isInf bn = false -> isNan bn = false -> value bn = Some x ->
  0 < x <= 2 ^ 63 ->
  rounding bn = RoundUp \/ rounding bn = RoundDown ->
  Log enough_fuel bn =
  Some (Ok (mkBigNumber (Some 1) (Some 0) (precision bn) (rounding bn)
                        false false (Some 1))).
Proof.
  intros Hi Hn Hv Hx Hm.
  assert (Hs : forall s, stored (rounding bn) (scaleForPrecision bn) s = s).
  { intros s. destruct Hm as [-> | ->]; reflexivity. }
  destruct (Exp_loop_result x Hx) as (R & HR & Hge).
  assert (He : Log_exp enough_fuel bn = Some (Ok (Some R))).
  { unfold Log_exp. rewrite (Exp_finite _ bn x Hi Hn Hv), HR.
    cbn [bind]. rewrite reparse_stored.
    cbn [pointer_of bind deref value].
    rewrite applyRounding_stored, !Hs. reflexivity. }
  unfold Log. rewrite Hi, Hn. cbn [orb].
  rewrite (IsZero_value bn x Hv), Hv.
  replace (x =? 0) with false by (symmetry; apply Z.eqb_neq; lia).
  replace (Z.sgn x <? 0) with false
    by (symmetry; apply Z.ltb_ge; destruct x; simpl; lia).
  rewrite He. unfold enough_fuel at 2.
  rewrite (Log_loop_first_pass _ _ bn x 1 R) by lia.
  replace (R =? 0) with false by (symmetry; apply Z.eqb_neq; lia).
  rewrite (Z.div_small (R - x) R) by lia.
  cbn [bind]. rewrite reparse_stored, Hs. reflexivity.
Qed.

Lemma X24_Log_is_constant_witness :
  Log enough_fuel (whole 1000) =
  Some (Ok (mkBigNumber (Some 1) (Some 0) 0 RoundDown false false
                        (Some 1))).
Proof.
  apply (X24_Log_is_constant (whole 1000) 1000);
    [reflexivity|reflexivity|reflexivity|split; [reflexivity|discriminate]|].
  right. reflexivity.
Defined.

(** ** Add and Subtract of the earlier draft *)

Lemma Draft_checks (a b : BigNumber) :
  precision a = precision b ->
  isInf a = false -> isNan a = false -> isInf b = false -> isNan b = false ->
  checkPrecision a b = Ok tt /\ Draft.checkSpecialCases a b = Ok tt.
Proof.
  intros Hp Ia Na Ib Nb. split; [apply checkPrecision_same; exact Hp|].
  unfold Draft.checkSpecialCases. rewrite Ia, Na, Ib, Nb. reflexivity.
Qed.

(** X25: in the earlier draft Add returns the absolute value of the sum:
    for finite operands of one precision whose second operand has halves
    that are not negative (as in every number the constructor builds from
    the grammar), the halves are added, the larger sum is stored as
    [positive], and the value is |a + b|; adding two negative numbers
    gives a positive one. *)
Theorem X25_Draft_Add_absolute (a b : BigNumber) (pa na pb nb : Z) :
  precision a = precision b ->
  isInf a = false -> isNan a = false -> isInf b = false -> isNan b = false ->
  positive a = Some pa -> negative a = Some na ->
  positive b = Some pb -> negative b = Some nb ->
  0 <= pb -> 0 <= nb ->
  Draft.Add a b =
  Ok (mkBigNumber (Some (Z.max (pa + pb) (na + nb)))
                  (Some (Z.min (pa + pb) (na + nb)))
                  (precision a) (rounding a) false false
                  (Some (Z.abs ((pa - na) + (pb - nb))))).
Proof.
  intros Hp Ia Na Ib Nb Pa Ng Pb Nb' Hpb Hnb.
  destruct (Draft_checks a b Hp Ia Na Ib Nb) as [H1 H2].
  unfold Draft.Add. rewrite H1, H2, Pa, Ng, Pb, Nb'.
  cbn [bind Go.Add Go.lift2].
  rewrite (settle_some a _ _ pa na _ Pa Ng).
  replace (pa + pb <? pa) with false by (symmetry; apply Z.ltb_ge; lia).
  replace (na + nb <? na) with false by (symmetry; apply Z.ltb_ge; lia).
  cbn [orb]. do 2 f_equal. f_equal. lia.
Qed.

Lemma X25_Draft_Add_absolute_witness :
  Draft.Add
    (mkBigNumber (Some 45) (Some 123) 2 RoundToNearest false false
                 (Some (-78)))
    (mkBigNumber (Some 89) (Some 67) 2 RoundToNearest false false
                 (Some 22)) =
  Ok (mkBigNumber (Some (Z.max (45 + 89) (123 + 67)))
                  (Some (Z.min (45 + 89) (123 + 67)))
                  2 RoundToNearest false false
                  (Some (Z.abs ((45 - 123) + (89 - 67))))).
Proof.
  apply (X25_Draft_Add_absolute
           (mkBigNumber (Some 45) (Some 123) 2 RoundToNearest false false
                        (Some (-78)))
           (mkBigNumber (Some 89) (Some 67) 2 RoundToNearest false false
                        (Some 22)) 45 123 89 67);
    try reflexivity; discriminate.
Defined.

(** X26: in the earlier draft Subtract reports an overflow whenever a
    half of the second operand is positive, that is for every second
    operand the constructor builds from the grammar other than zero:
    the difference of the halves is then smaller than the receiver's
    half, which is what the overflow test looks for. *)
Theorem X26_Draft_Subtract_overflow (a b : BigNumber) (pa na pb nb : Z) :
  precision a = precision b ->
  isInf a = false -> isNan a = false -> isInf b = false -> isNan b = false ->
  positive a = Some pa -> negative a = Some na ->
  positive b = Some pb -> negative b = Some nb ->
  0 < pb \/ 0 < nb ->
  Draft.Subtract a b = Err OverflowError.
Proof.
  intros Hp Ia Na Ib Nb Pa Ng Pb Nb' Hpos.
  destruct (Draft_checks a b Hp Ia Na Ib Nb) as [H1 H2].
  unfold Draft.Subtract. rewrite H1, H2, Pa, Ng, Pb, Nb'.
  cbn [bind Go.Sub Go.lift2].
  rewrite (settle_some a _ _ pa na _ Pa Ng).
  destruct Hpos as [H|H].
  - replace (pa - pb <? pa) with true by (symmetry; apply Z.ltb_lt; lia).
    reflexivity.
  - replace (na - nb <? na) with true by (symmetry; apply Z.ltb_lt; lia).
    rewrite orb_true_r. reflexivity.
Qed.

Lemma X26_Draft_Subtract_overflow_witness :
  Draft.Subtract bn_123_45 bn_67_89 = Err OverflowError.
Proof.
  apply (X26_Draft_Subtract_overflow bn_123_45 bn_67_89 123 45 67 89);
    try reflexivity.
  left. reflexivity.
Defined.

(** ** The scale factor *)

(** X27: scaleForPrecision is 10^precision for every precision below
    2^63; from 2^63 to 2^64 - 1 the conversion of the precision to int64
    is negative and the scale factor is 1. *)
Theorem X27_scaleForPrecision_values (bn : BigNumber) :
  (Z.of_N (precision bn) < 2 ^ 63 ->
   scaleForPrecision bn = 10 ^ Z.of_N (precision bn)) /\
  (2 ^ 63 <= Z.of_N (precision bn) < 2 ^ 64 -> scaleForPrecision bn = 1).
Proof.
  split; [apply scaleForPrecision_pow|].
  intros H. unfold scaleForPrecision, Go.int64.
  rewrite Z.mod_small by lia.
  destruct (Z.of_N (precision bn) <? 2 ^ 63) eqn:E;
    [apply Z.ltb_lt in E; lia|].
  unfold Go.Exp10.
  destruct (Z.of_N (precision bn) - 2 ^ 64 <=? 0) eqn:E';
    [reflexivity|apply Z.leb_gt in E'; lia].
Qed.

Lemma X27_scaleForPrecision_values_witness :
  scaleForPrecision (literal 2 RoundDown) = 10 ^ 2 /\
  scaleForPrecision (literal (2 ^ 63) RoundDown) = 1.
Proof.
  destruct (X27_scaleForPrecision_values (literal 2 RoundDown)) as [H1 _].
  destruct (X27_scaleForPrecision_values (literal (2 ^ 63) RoundDown))
    as [_ H2].
  split; [apply H1; reflexivity|apply H2; split; [discriminate|reflexivity]].
Defined.

(** ** The constructor's Infinite and NotANumber in use *)

(** X28: on the Infinite and NotANumber numbers the constructor returns
    (whose value is nil), IsZero and AbsoluteValue panic and so does
    Round to any other precision; String renders them as "Infinity" and
    "NaN", and Exp and Log both return NotANumber for either. *)
Theorem X28_specials_in_use (str : string) (p : N) (m : RoundingMode)
        (bn : BigNumber) (t : N) (fuel : nat) :
  NewBigNumber str p m = Ok bn -> isInf bn || isNan bn = true ->
  t <> p ->
  IsZero bn = Panic NilDereference /\
  AbsoluteValue bn = Panic NilDereference /\
  Round bn t = Panic NilDereference /\
  BigNumber_String bn = Ok (if isInf bn then "Infinity" else "NaN") /\
  Exp fuel bn =
    Some (Ok (mkBigNumber None None p m false true None)) /\
  Log fuel bn =
    Some (Ok (mkBigNumber None None p m false true None)).
Proof.
  intros Hc Hs Ht.
  destruct (NewBigNumber_result str p m bn Hc) as (Hp & Hm & H).
  assert (Hv : value bn = None).
  { destruct H as [H | [H | (pos & neg & Ci & Cn & _)]];
      [apply H|apply H|].
    rewrite Ci, Cn in Hs. discriminate. }
  unfold IsZero, AbsoluteValue, Round, BigNumber_String, Exp, Log.
  rewrite Hv, Hs, Hp, Hm.
  destruct (N.eqb_spec t p); [contradiction|].
  repeat split.
  destruct (isInf bn) eqn:Ei; [reflexivity|].
  simpl in Hs. rewrite Hs. reflexivity.
Qed.

Lemma X28_specials_in_use_witness :
  IsZero bn_inf = Panic NilDereference /\
  AbsoluteValue bn_inf = Panic NilDereference /\
  Round bn_inf 5 = Panic NilDereference /\
  BigNumber_String bn_inf = Ok (if isInf bn_inf then "Infinity" else "NaN")
  /\
  Exp 0 bn_inf =
    Some (Ok (mkBigNumber None None 2 RoundToNearest false true None)) /\
  Log 0 bn_inf =
    Some (Ok (mkBigNumber None None 2 RoundToNearest false true None)).
Proof.
  apply (X28_specials_in_use "inf" 2 RoundToNearest bn_inf 5 0).
  - vm_compute. reflexivity.
  - reflexivity.
  - discriminate.
Defined.

(** ** The rounding step inside Add and Subtract *)

(** X29: for operands as the constructor builds them, of one precision p
    below 2^63, not both zero, the left one not in RoundToEven mode, Add
    and Subtract return a number of that precision whose value depends
    on the left operand's mode: under RoundUp and RoundDown it is the
    raw sum or difference of the operands' values, and under
    RoundToNearest it is that sum or difference increased by half of
    10^p and integer-divided by 10^p. *)
Theorem X29_Add_Subtract_rounding (a b : BigNumber) (pa na pb nb : Z) :
  constructed a pa na -> constructed b pb nb ->
  precision a = precision b -> Z.of_N (precision a) < 2 ^ 63 ->
  (pa - na =? 0) && (pb - nb =? 0) = false ->
  rounding a <> RoundToEven ->
  let scale := 10 ^ Z.of_N (precision a) in
  let round s :=
    match rounding a with
    | RoundToNearest => (s + scale / 2) / scale
    | _ => s
    end in
  exists sum diff,
    Add a b = Ok sum /\ Subtract a b = Ok diff /\
    precision sum = precision a /\ precision diff = precision a /\
    value sum = Some (round ((pa - na) + (pb - nb))) /\
    value diff = Some (round ((pa - na) - (pb - nb))).
Proof.
  intros Ca Cb Hp Hr Hz He scale round.
  rewrite (Add_stored a b pa na pb nb Ca Cb Hp Hz).
  rewrite (Subtract_stored a b pa na pb nb Ca Cb Hp Hz).
  rewrite (scaleForPrecision_pow a Hr).
  do 2 eexists. repeat split; cbn [value]; subst round scale;
    destruct (rounding a); try reflexivity; contradiction.
Qed.

Lemma X29_Add_Subtract_rounding_witness :
  exists sum diff,
    Add bn_123_45 bn_67_89 = Ok sum /\
    Subtract bn_123_45 bn_67_89 = Ok diff /\
    precision sum = 2%N /\ precision diff = 2%N /\
    value sum = Some ((78 + -22 + 10 ^ 2 / 2) / 10 ^ 2) /\
    value diff = Some ((78 - -22 + 10 ^ 2 / 2) / 10 ^ 2).
Proof.
  apply (X29_Add_Subtract_rounding bn_123_45 bn_67_89 123 45 67 89).
  - repeat split.
  - repeat split.
  - reflexivity.
  - reflexivity.
  - reflexivity.
  - discriminate.
Defined.
